(** * yuzu: the Maxwell breakpoints panel and the install dialog

    A shallow embedding of
      - src/yuzu/debugger/graphics/graphics_breakpoints.cpp
        (BreakPointModel, GraphicsBreakPointsWidget), and
      - src/yuzu/install_dialog.cpp (InstallDialog),
    followed by the properties of the two components.

    The slots of the breakpoint model and of the widget run on the UI
    thread, one at a time; each of them is a computation over the
    objects it can reach (the shared debug context, the model's cached
    snapshot, the widget's label and button) that may also emit Qt
    signals.  They are written in a small state/log/failure monad [M].
    The install dialog is a record updated by pure functions. *)

From Stdlib Require Import ZArith String Ascii Lia.
From stdpp Require Import base option list list_numbers strings gmap.

Local Open Scope Z_scope.

(** ** The parts of Qt the two files use *)

Module Qt.

(** [Qt::CheckState]. *)
Inductive CheckState := Unchecked | PartiallyChecked | Checked.

#[global] Instance CheckState_eq_dec : EqDecision CheckState.
Proof. solve_decision. Defined.

(** [Qt::ItemFlag] values, combined with bitwise or. *)
Definition NoItemFlags : Z := 0.
Definition ItemIsSelectable : Z := 1.
Definition ItemIsDragEnabled : Z := 4.
Definition ItemIsUserCheckable : Z := 16.
Definition ItemIsEnabled : Z := 32.

(** The item data roles the model's [switch] statements name.  A role is
    an [int] in the source; [OtherRole] stands for every value that none
    of the [case] labels matches.  [Role_IsEnabled] is the model's own
    role, declared in graphics_breakpoints_p.h. *)
Inductive Role :=
| DisplayRole
| CheckStateRole
| BackgroundRole
| Role_IsEnabled
| OtherRole (n : Z).

(** [QModelIndex]: a row, a column and whether a model is attached. *)
Record QModelIndex := mkIndex { row : Z; column : Z; has_model : bool }.

(** The default-constructed index [QModelIndex()]. *)
Definition invalidIndex : QModelIndex := mkIndex (-1) (-1) false.

(** [QAbstractItemModel::createIndex(row, column)]. *)
Definition createIndex (r c : Z) : QModelIndex := mkIndex r c true.

(** [QModelIndex::isValid]. *)
Definition isValid (i : QModelIndex) : bool :=
  (0 <=? row i) && (0 <=? column i) && has_model i.

(** [QVariant], restricted to the payloads the two files store in one.
    [QVariant()] is [Invalid]. *)
Inductive QVariant :=
| Invalid
| VString (s : string)
| VBool (b : bool)
| VCheckState (c : CheckState)
| VBrush (r g b : Z).

#[global] Instance QVariant_eq_dec : EqDecision QVariant.
Proof. solve_decision. Defined.

(** [QVariant::toBool]. *)
Definition toBool (v : QVariant) : bool :=
  match v with
  | VBool b => b
  | VCheckState c => negb (bool_decide (c = Unchecked))
  | VString s => negb (bool_decide (s = ""%string))
  | _ => false
  end.

(** [QVariant::toString], for the payloads above. *)
Definition toString (v : QVariant) : string :=
  match v with
  | VString s => s
  | VBool true => "true"%string
  | VBool false => "false"%string
  | VCheckState Unchecked => "0"%string
  | VCheckState PartiallyChecked => "1"%string
  | VCheckState Checked => "2"%string
  | _ => ""%string
  end.

(** [v == c] for a variant [v] and a [Qt::CheckState] [c], as the source
    writes [value == Qt::Checked]: the check state becomes the variant
    of the [int] it stands for, and [QVariant::operator==] compares.  Two
    numeric payloads (a [bool] counts as [0] or [1]) are equal when their
    values are; a string is compared with the decimal text of the number;
    a null variant or a brush equals no number. *)
Definition CheckState_int (c : CheckState) : Z :=
  match c with
  | Unchecked => 0
  | PartiallyChecked => 1
  | Checked => 2
  end.

Definition equals_CheckState (v : QVariant) (c : CheckState) : bool :=
  match v with
  | VCheckState c' => bool_decide (CheckState_int c' = CheckState_int c)
  | VBool b => bool_decide ((if b then 1 else 0) = CheckState_int c)
  | VString s => bool_decide (s = toString (VCheckState c))
  | Invalid => false
  | VBrush _ _ _ => false
  end.

End Qt.

Import Qt.

(** ** The debug context (video_core, consumed through its interface) *)

Module Tegra.

(** Modelled from the spec: the declaration of [Tegra::DebugContext] is
    not among the sources.  [Event] is the enumeration of section 3 of
    the specification, in its display order, closed by the sentinel
    [NumEvents]; the model casts rows to events and back, so an event
    is the integer it is stored as. *)
Definition Event := Z.
Definition MaxwellCommandLoaded : Event := 0.
Definition MaxwellCommandProcessed : Event := 1.
Definition IncomingPrimitiveBatch : Event := 2.
Definition FinishedPrimitiveBatch : Event := 3.
Definition NumEvents : Event := 4.

(** Modelled from the spec: a breakpoint entry is an [enabled] flag. *)
Record BreakPoint := mkBreakPoint { enabled : bool }.

(** Modelled from the spec: the fields of the context that the panel
    reads and writes.  [breakpoints] is an array with one entry per
    event kind. *)
Record DebugContext := mkDebugContext {
  at_breakpoint : bool;
  active_breakpoint : Event;
  breakpoints : list BreakPoint
}.

(** The array has exactly [NumEvents] entries. *)
Definition well_formed (c : DebugContext) : Prop :=
  length (breakpoints c) = Z.to_nat NumEvents.

(** A context as section 8, scenario 1 starts from: running, every
    breakpoint disabled. *)
Definition fresh : DebugContext :=
  mkDebugContext false MaxwellCommandLoaded
                 (replicate (Z.to_nat NumEvents) (mkBreakPoint false)).

End Tegra.

(** ** Outcomes, the store and the monad of the UI-thread slots *)

(** Indexing [breakpoints] outside the array is undefined in the source;
    the embedding reports it as [OutOfBounds] and stops. *)
Inductive outcome (A : Type) :=
| Ret (a : A)
| OutOfBounds.
Arguments Ret {A} a.
Arguments OutOfBounds {A}.

#[global] Instance outcome_eq_dec {A} `{EqDecision A} : EqDecision (outcome A).
Proof. solve_decision. Defined.

(** The model's cached snapshot. *)
Record BreakPointModel := mkModel {
  at_breakpoint : bool;
  active_breakpoint : Tegra.Event
}.

(** What the slots can reach.  [context] is the result of
    [context_weak.lock()]: [None] once the debug context is gone.  The
    model and the widget hold weak references to the same context. *)
Record Store := mkStore {
  context : option Tegra.DebugContext;
  model : BreakPointModel;
  status_text : string;
  resume_button_enabled : bool
}.

(** What a slot does to the outside: a [dataChanged] emission, recorded
    with the store as the directly connected view finds it when the
    signal is delivered, or a call of [DebugContext::Resume]. *)
Inductive Effect :=
| dataChanged (topLeft bottomRight : QModelIndex) (seen : Store)
| Resume.

Definition M (A : Type) : Type := Store → outcome (A * Store * list Effect).

#[global] Instance M_ret : MRet M := λ A a s, Ret (a, s, []).

#[global] Instance M_bind : MBind M := λ A B f m s,
  match m s with
  | OutOfBounds => OutOfBounds
  | Ret (a, s1, l1) =>
      match f a s1 with
      | OutOfBounds => OutOfBounds
      | Ret (b, s2, l2) => Ret (b, s2, l1 ++ l2)
      end
  end.

(** [context_weak.lock()]. *)
Definition lock : M (option Tegra.DebugContext) := λ s, Ret (context s, s, []).

(** [emit dataChanged(topLeft, bottomRight)]. *)
Definition emit_dataChanged (topLeft bottomRight : QModelIndex) : M unit :=
  λ s, Ret (tt, s, [dataChanged topLeft bottomRight s]).

(** [context->Resume()], on a context that [lock] has returned. *)
Definition call_Resume : M unit := λ s, Ret (tt, s, [Resume]).

(** [breakpoints[i]] as an rvalue. *)
Definition breakpoint_at (c : Tegra.DebugContext) (i : Z) : outcome Tegra.BreakPoint :=
  if bool_decide (0 ≤ i) then
    match Tegra.breakpoints c !! Z.to_nat i with
    | Some b => Ret b
    | None => OutOfBounds
    end
  else OutOfBounds.

(** [context->breakpoints[i].enabled = b], through the shared pointer
    that [lock] has returned: the write lands in the shared context. *)
Definition store_enabled (i : Z) (b : bool) : M unit := λ s,
  match context s with
  | None => OutOfBounds
  | Some c =>
      match breakpoint_at c i with
      | OutOfBounds => OutOfBounds
      | Ret _ =>
          let c' := Tegra.mkDebugContext (Tegra.at_breakpoint c) (Tegra.active_breakpoint c)
                      (<[Z.to_nat i := Tegra.mkBreakPoint b]> (Tegra.breakpoints c)) in
          Ret (tt, mkStore (Some c') (model s) (status_text s) (resume_button_enabled s), [])
      end
  end.

Definition set_model (m : BreakPointModel) : M unit := λ s,
  Ret (tt, mkStore (context s) m (status_text s) (resume_button_enabled s), []).

Definition get_model : M BreakPointModel := λ s, Ret (model s, s, []).

Definition set_status (text : string) (button : bool) : M unit := λ s,
  Ret (tt, mkStore (context s) (model s) text button, []).

(** ** BreakPointModel *)

(** The constructor copies the snapshot out of the context. *)
Definition BreakPointModel_new (debug_context : Tegra.DebugContext) : BreakPointModel :=
  mkModel (Tegra.at_breakpoint debug_context) (Tegra.active_breakpoint debug_context).

Definition columnCount : Z := 1.

Definition rowCount : Z := Tegra.NumEvents.

(** The static table of [data]'s [DisplayRole] case. *)
Definition event_names : gmap Z string :=
  list_to_map
    [ (Tegra.MaxwellCommandLoaded, "Maxwell command loaded"%string);
      (Tegra.MaxwellCommandProcessed, "Maxwell command processed"%string);
      (Tegra.IncomingPrimitiveBatch, "Incoming primitive batch"%string);
      (Tegra.FinishedPrimitiveBatch, "Finished primitive batch"%string) ].

(** The colour of the highlight: [QBrush(QColor(0xE0, 0xE0, 0x10))]. *)
Definition highlight : QVariant := VBrush 224 224 16.

(** The [Role_IsEnabled] case of [data], which the [CheckStateRole] case
    calls back into. *)
Definition data_IsEnabled (s : Store) (index : QModelIndex) : outcome QVariant :=
  let event := row index in
  match context s with
  | None => Ret (VBool false)
  | Some c =>
      match breakpoint_at c event with
      | OutOfBounds => OutOfBounds
      | Ret b => Ret (VBool (Tegra.enabled b))
      end
  end.

Definition data (s : Store) (index : QModelIndex) (role : Role) : outcome QVariant :=
  let event := row index in
  match role with
  | DisplayRole =>
      if bool_decide (column index = 0) then
        Ret (VString (default ""%string (event_names !! event)))
      else Ret Invalid
  | CheckStateRole =>
      if bool_decide (column index = 0) then
        match data_IsEnabled s index with
        | OutOfBounds => OutOfBounds
        | Ret v => Ret (VCheckState (if toBool v then Checked else Unchecked))
        end
      else Ret Invalid
  | BackgroundRole =>
      if at_breakpoint (model s) && bool_decide (row index = active_breakpoint (model s))
      then Ret highlight
      else Ret Invalid
  | Role_IsEnabled => data_IsEnabled s index
  | OtherRole _ => Ret Invalid
  end.

Definition flags (index : QModelIndex) : Z :=
  if negb (isValid index) then NoItemFlags
  else
    let flags := ItemIsEnabled in
    if bool_decide (column index = 0) then Z.lor flags ItemIsUserCheckable else flags.

Definition setData (index : QModelIndex) (value : QVariant) (role : Role) : M bool :=
  let event := row index in
  match role with
  | CheckStateRole =>
      if bool_decide (column index ≠ 0) then mret false
      else
        context ← lock;
        match context with
        | None => mret false
        | Some _ =>
            store_enabled event (equals_CheckState value Checked);;
            let changed_index := createIndex (row index) 0 in
            emit_dataChanged changed_index changed_index;;
            mret true
        end
  | _ => mret false
  end.

Definition OnBreakPointHit (event : Tegra.Event) : M unit :=
  context ← lock;
  match context with
  | None => mret tt
  | Some c =>
      m ← get_model;
      set_model (mkModel (at_breakpoint m) (Tegra.active_breakpoint c));;
      m ← get_model;
      set_model (mkModel (Tegra.at_breakpoint c) (active_breakpoint m));;
      emit_dataChanged (createIndex event 0) (createIndex event 0)
  end.

Definition OnResumed : M unit :=
  context ← lock;
  match context with
  | None => mret tt
  | Some c =>
      m ← get_model;
      set_model (mkModel (Tegra.at_breakpoint c) (active_breakpoint m));;
      m ← get_model;
      emit_dataChanged (createIndex (active_breakpoint m) 0)
                       (createIndex (active_breakpoint m) 0);;
      m ← get_model;
      set_model (mkModel (at_breakpoint m) (Tegra.active_breakpoint c))
  end.

(** [QAbstractListModel::index(row, column)], which the view and the
    double-click slot obtain their indexes from: an index of this model
    when the position exists, the invalid index otherwise. *)
Definition hasIndex (r c : Z) : bool :=
  bool_decide (0 ≤ r) && bool_decide (0 ≤ c)
  && bool_decide (r < rowCount) && bool_decide (c < columnCount).

Definition index (r c : Z) : QModelIndex :=
  if hasIndex r c then createIndex r c else invalidIndex.

(** The two per-row operations under the names the specification gives
    them: the check state of a row is [data] at [CheckStateRole], and
    setting it is [setData] at [CheckStateRole] with [Qt::Checked] or
    [Qt::Unchecked]. *)
Definition check_state (s : Store) (r : Z) : outcome QVariant :=
  data s (createIndex r 0) CheckStateRole.

Definition of_checked (checked : bool) : CheckState :=
  if checked then Checked else Unchecked.

Definition set_check_state (r : Z) (checked : bool) : M bool :=
  setData (createIndex r 0) (VCheckState (of_checked checked)) CheckStateRole.

(** A sequence of [set_check_state] calls, one after the other; the
    result lists what each call returned. *)
Fixpoint set_check_states (calls : list (Z * bool)) : M (list bool) :=
  match calls with
  | [] => mret []
  | (r, checked) :: rest =>
      ok ← set_check_state r checked;
      oks ← set_check_states rest;
      mret (ok :: oks)
  end.

(** The rows [0 .. rowCount-1] whose background is the highlight. *)
Definition highlighted_rows (s : Store) : list Z :=
  filter (λ r, data s (createIndex r 0) BackgroundRole = Ret highlight)
         (seqZ 0 rowCount).

(** ** GraphicsBreakPointsWidget *)

Module GraphicsBreakPointsWidget.

(** The state the constructor leaves behind: the label and the button
    of a running emulation, and a model built from the context. *)
Definition new (debug_context : Tegra.DebugContext) : Store :=
  mkStore (Some debug_context) (BreakPointModel_new debug_context)
          "Emulation running" false.

Definition OnBreakPointHit (event : Tegra.Event) : M unit :=
  set_status "Emulation halted at breakpoint" true.

Definition OnResumed : M unit :=
  set_status "Emulation running" false.

Definition OnResumeRequested : M unit :=
  context ← lock;
  match context with
  | Some _ => call_Resume
  | None => mret tt
  end.

Definition OnItemDoubleClicked (idx : QModelIndex) : M unit :=
  if negb (isValid idx) then mret tt
  else
    let check_index := index (row idx) 0 in
    λ s,
      match data s check_index CheckStateRole with
      | OutOfBounds => OutOfBounds
      | Ret enabled =>
          let new_state :=
            if equals_CheckState enabled Unchecked then Checked else Unchecked in
          (setData check_index (VCheckState new_state) CheckStateRole;; mret tt) s
      end.

End GraphicsBreakPointsWidget.

(** The [connect] calls of the constructor that attach slots to the two
    signals raised from the emulator thread, in source order.  The two
    connections of [BreakPointHit] ask for [Qt::BlockingQueuedConnection];
    the two of [Resumed] name no type, which is [Qt::AutoConnection]. *)
Inductive ConnectionType := AutoConnection | BlockingQueuedConnection.

Inductive SignalName := SIGNAL_BreakPointHit | SIGNAL_Resumed.

#[global] Instance SignalName_eq_dec : EqDecision SignalName.
Proof. solve_decision. Defined.

Inductive Slot :=
| widget_OnBreakPointHit
| widget_OnResumed
| model_OnBreakPointHit
| model_OnResumed.

Definition connections : list (SignalName * Slot * ConnectionType) :=
  [ (SIGNAL_BreakPointHit, widget_OnBreakPointHit, BlockingQueuedConnection);
    (SIGNAL_Resumed, widget_OnResumed, AutoConnection);
    (SIGNAL_BreakPointHit, model_OnBreakPointHit, BlockingQueuedConnection);
    (SIGNAL_Resumed, model_OnResumed, AutoConnection) ].

Definition slots_of (signal : SignalName) : list Slot :=
  (λ c, c.1.2) <$> filter (λ c, c.1.1 = signal) connections.

(** A slot invoked with the argument of the signal; the slots of
    [Resumed] take none. *)
Definition invoke (event : Tegra.Event) (slot : Slot) : M unit :=
  match slot with
  | widget_OnBreakPointHit => GraphicsBreakPointsWidget.OnBreakPointHit event
  | widget_OnResumed => GraphicsBreakPointsWidget.OnResumed
  | model_OnBreakPointHit => OnBreakPointHit event
  | model_OnResumed => OnResumed
  end.

(** What the UI thread runs for one publication of a signal: the slots
    connected to it, in connection order. *)
Definition deliver (signal : SignalName) (event : Tegra.Event) : M unit :=
  foldr (λ slot rest, invoke event slot;; rest) (mret tt) (slots_of signal).

Definition deliver_BreakPointHit (event : Tegra.Event) : M unit :=
  deliver SIGNAL_BreakPointHit event.

Definition deliver_Resumed : M unit :=
  deliver SIGNAL_Resumed Tegra.MaxwellCommandLoaded.

(** ** InstallDialog *)

Module Install.

(** The machine [int], and the two operations the constructor applies
    to the size hint.  Signed overflow is undefined in the source; the
    embedding wraps, and the statements below say when it cannot
    happen. *)
Definition INT_MAX : Z := 2147483647.

Definition wrap_int (z : Z) : Z := (z + 2 ^ 31) mod 2 ^ 32 - 2 ^ 31.

Definition int_mul (a b : Z) : Z := wrap_int (a * b).

Definition int_div (a b : Z) : Z := wrap_int (Z.quot a b).

(** [QFileInfo(file).fileName()]: what follows the last ['/']. *)
Fixpoint fileName_from (acc : string) (path : string) : string :=
  match path with
  | EmptyString => acc
  | String c rest =>
      if Ascii.eqb c "/"%char then fileName_from EmptyString rest
      else fileName_from (acc +:+ String c EmptyString) rest
  end.

Definition fileName (path : string) : string := fileName_from EmptyString path.

(** [QListWidgetItem]: its text, the [Qt::UserRole] data, the flags and
    the check state. *)
Record QListWidgetItem := mkItem {
  text : string;
  user_data : QVariant;
  item_flags : Z;
  checkState : CheckState
}.

(** The flags of a newly created [QListWidgetItem]. *)
Definition default_item_flags : Z :=
  Z.lor ItemIsSelectable (Z.lor ItemIsUserCheckable (Z.lor ItemIsEnabled ItemIsDragEnabled)).

(** [QListWidget]: the items in list order, and the two widths of the
    widget: the minimum it may be given and the one it currently has. *)
Record QListWidget := mkList {
  items : list QListWidgetItem;
  minimumWidth : Z;
  width : Z
}.

(** [QDialog::DialogCode]. *)
Inductive DialogCode := Rejected | Accepted.

Record InstallDialog := mkDialog {
  file_list : QListWidget;
  result : DialogCode
}.

(** A list widget just created as a child: no items, no minimum, and
    the width Qt gives a child widget before any layout has run. *)
Definition QListWidget_new : QListWidget := mkList [] 0 100.

(** [QListWidget::count] and [QListWidget::item]. *)
Definition count (l : QListWidget) : Z := Z.of_nat (length (items l)).

Definition item (l : QListWidget) (i : Z) : option QListWidgetItem :=
  if bool_decide (0 ≤ i) then items l !! Z.to_nat i else None.

(** [QAbstractItemView::sizeHintForColumn(0)]: the widest size hint
    among the rows, [0] for an empty list.  The width the delegate
    asks for to render an item is Qt's business and comes in as
    [rendered_width]. *)
Definition sizeHintForColumn (rendered_width : string → Z) (l : QListWidget) : Z :=
  foldl (λ w it, Z.max w (rendered_width (text it))) 0 (items l).

(** [QWidget::setMinimumWidth].  Qt keeps a minimum between [0] and
    [QWIDGETSIZE_MAX]: a larger request is cut down to [QWIDGETSIZE_MAX], a
    negative one raised to [0], and a request of exactly [QWIDGETSIZE_MAX]
    is stored as [0], no minimum.  When the stored minimum changes, a
    widget narrower than the request is widened to it. *)
Definition QWIDGETSIZE_MAX : Z := 16777215.

Definition setMinimumWidth (minw : Z) (l : QListWidget) : QListWidget :=
  let mw := if bool_decide (minw = QWIDGETSIZE_MAX) then 0 else minw in
  let '(minw, mw) :=
    if bool_decide (QWIDGETSIZE_MAX < minw) then (QWIDGETSIZE_MAX, QWIDGETSIZE_MAX)
    else (minw, mw) in
  let '(minw, mw) := if bool_decide (minw < 0) then (0, 0) else (minw, mw) in
  if bool_decide (minimumWidth l = mw) then l
  else mkList (items l) mw (Z.max minw (width l)).

(** The body of the constructor's loop: one checked, user-checkable
    item per file, appended to the list. *)
Definition add_file (l : QListWidget) (file : string) : QListWidget :=
  let it := mkItem (fileName file) Invalid default_item_flags Unchecked in
  let it := mkItem (text it) (VString file) (item_flags it) (checkState it) in
  let it := mkItem (text it) (user_data it)
                   (Z.lor (item_flags it) ItemIsUserCheckable) (checkState it) in
  let it := mkItem (text it) (user_data it) (item_flags it) Checked in
  mkList (items l ++ [it]) (minimumWidth l) (width l).

Definition new (rendered_width : string → Z) (files : list string) : InstallDialog :=
  let file_list := foldl add_file QListWidget_new files in
  let file_list :=
    setMinimumWidth
      (int_div (int_mul (sizeHintForColumn rendered_width file_list) 11) 10)
      file_list in
  mkDialog file_list Rejected.

(** [GetFiles]: the loop runs [i] from [0] to [count() - 1]; an [item(i)]
    that came back null would end it in a failure ([None]). *)
Definition GetFiles_step (l : QListWidget) (acc : option (list string)) (i : Z)
  : option (list string) :=
  files ← acc;
  it ← item l i;
  if bool_decide (checkState it = Checked)
  then Some (files ++ [toString (user_data it)])
  else Some files.

Definition GetFiles (d : InstallDialog) : option (list string) :=
  foldl (GetFiles_step (file_list d)) (Some []) (seqZ 0 (count (file_list d))).

Definition GetMinimumWidth (d : InstallDialog) : Z := width (file_list d).

(** What happens to the dialog between construction and the reads: the
    user sets the check state of an item, presses Install or Cancel
    (the slots [accept] and [reject]), or the layout gives the list a
    new width, never below its minimum. *)
Definition setCheckState (i : nat) (c : CheckState) (d : InstallDialog) : InstallDialog :=
  let l := file_list d in
  mkDialog
    (mkList (alter (λ it, mkItem (text it) (user_data it) (item_flags it) c) i (items l))
            (minimumWidth l) (width l))
    (result d).

Definition accept (d : InstallDialog) : InstallDialog := mkDialog (file_list d) Accepted.

Definition reject (d : InstallDialog) : InstallDialog := mkDialog (file_list d) Rejected.

Definition resize (w : Z) (d : InstallDialog) : InstallDialog :=
  let l := file_list d in
  mkDialog (mkList (items l) (minimumWidth l) (Z.max (minimumWidth l) w)) (result d).

Inductive action :=
| SetCheckState (i : nat) (c : CheckState)
| Accept
| Reject
| Resize (w : Z).

Definition step (d : InstallDialog) (a : action) : InstallDialog :=
  match a with
  | SetCheckState i c => setCheckState i c d
  | Accept => accept d
  | Reject => reject d
  | Resize w => resize w d
  end.

Definition run (actions : list action) (d : InstallDialog) : InstallDialog :=
  foldl step d actions.

(** The paths of [files] whose check state in [states], position by
    position, is [Checked]: the reading of "the input paths whose item
    is still checked, in the original order". *)
Definition checked_paths (files : list string) (states : list CheckState) : list string :=
  (filter (λ p, p.2 = Checked) (zip files states)).*1.

Definition check_states (d : InstallDialog) : list CheckState :=
  checkState <$> items (file_list d).

(** The path an item stands for, as [GetFiles] reads it. *)
Definition item_path (it : QListWidgetItem) : string := toString (user_data it).

(** The item the constructor's loop builds for [file]. *)
Definition file_item (file : string) : QListWidgetItem :=
  mkItem (fileName file) (VString file)
         (Z.lor default_item_flags ItemIsUserCheckable) Checked.


(** A font for the examples: eight pixels a character. *)
Definition eight_pixels (text : string) : Z := 8 * Z.of_nat (String.length text).

End Install.

(** ** Vocabulary of the statements *)

(** The rows of the model. *)
Definition valid_row (r : Z) : Prop := 0 ≤ r < rowCount.

(** An index that names no cell of the model: a row outside
    [0 .. rowCount-1], or a column other than [0]. *)
Definition invalid_index (i : QModelIndex) : Prop :=
  ¬ valid_row (row i) ∨ column i ≠ 0.

(** A read that yields nothing: the null variant, an empty text, [false]
    or [Qt::Unchecked]. *)
Definition null_or_unchecked (r : outcome QVariant) : Prop :=
  r = Ret Invalid ∨ r = Ret (VString "") ∨ r = Ret (VBool false)
  ∨ r = Ret (VCheckState Unchecked).

(** The [enabled] flag of entry [k] of the breakpoint table, when the
    context is there and has such an entry. *)
Definition enabled_flag (s : Store) (k : Z) : option bool :=
  match context s with
  | None => None
  | Some c =>
      match breakpoint_at c k with
      | Ret b => Some (Tegra.enabled b)
      | OutOfBounds => None
      end
  end.

(** The last value a sequence of calls wrote to row [k], [init] when
    none of them names that row. *)
Fixpoint last_written (k : Z) (calls : list (Z * bool)) (init : bool) : bool :=
  match calls with
  | [] => init
  | (r, checked) :: rest =>
      last_written k rest (if bool_decide (r = k) then checked else init)
  end.

(** The store with the context replaced by [c]. *)
Definition with_context (c : Tegra.DebugContext) (s : Store) : Store :=
  mkStore (Some c) (model s) (status_text s) (resume_button_enabled s).

(** The context after [breakpoints[r].enabled = b]. *)
Definition write_enabled (r : Z) (b : bool) (c : Tegra.DebugContext) : Tegra.DebugContext :=
  Tegra.mkDebugContext (Tegra.at_breakpoint c) (Tegra.active_breakpoint c)
    (<[Z.to_nat r := Tegra.mkBreakPoint b]> (Tegra.breakpoints c)).

(** The reading of "first emits, and only then re-reads the snapshot":
    the one emission of [OnResumed] names the row that was active before
    the slot ran and is delivered while the store is still as the slot
    found it. *)
Definition emits_before_rereading (s : Store) : Prop :=
  ∃ s',
    let i := createIndex (active_breakpoint (model s)) 0 in
    OnResumed s = Ret (tt, s', [dataChanged i i s]).

(** A panel halted at [MaxwellCommandProcessed], and the same panel
    after the debug context has been torn down. *)
Definition halted_context : Tegra.DebugContext :=
  Tegra.mkDebugContext true Tegra.MaxwellCommandProcessed (Tegra.breakpoints Tegra.fresh).

Definition halted_store : Store :=
  mkStore (Some halted_context) (BreakPointModel_new halted_context)
          "Emulation halted at breakpoint" true.

Definition orphaned_store : Store :=
  mkStore None (BreakPointModel_new halted_context)
          "Emulation halted at breakpoint" true.

(** The halted panel at the moment the emulation has resumed and the
    [Resumed] signal is about to be delivered. *)
Definition resuming_store : Store :=
  mkStore (Some Tegra.fresh) (BreakPointModel_new halted_context)
          "Emulation halted at breakpoint" true.

(** A store whose context, when there is one, has its full table. *)
Definition store_well_formed (s : Store) : Prop :=
  match context s with
  | Some c => Tegra.well_formed c
  | None => True
  end.

(** The calls that reach the panel on the UI thread: a write from the
    view, the delivery of one of the two signals, a press of Resume, a
    double click. *)
Inductive ui_call :=
| ui_setData (index : QModelIndex) (value : QVariant) (role : Role)
| ui_deliver (signal : SignalName) (event : Tegra.Event)
| ui_OnResumeRequested
| ui_OnItemDoubleClicked (index : QModelIndex).

Definition perform (call : ui_call) : M unit :=
  match call with
  | ui_setData i v r => setData i v r;; mret tt
  | ui_deliver signal event => deliver signal event
  | ui_OnResumeRequested => GraphicsBreakPointsWidget.OnResumeRequested
  | ui_OnItemDoubleClicked i => GraphicsBreakPointsWidget.OnItemDoubleClicked i
  end.

Fixpoint perform_all (calls : list ui_call) : M unit :=
  match calls with
  | [] => mret tt
  | call :: rest => perform call;; perform_all rest
  end.

(** What the panel may not touch in the context: whether there is one,
    its two state fields and the size of its table. *)
Definition same_context_frame (s s' : Store) : Prop :=
  match context s, context s' with
  | None, None => True
  | Some c, Some c' =>
      Tegra.at_breakpoint c' = Tegra.at_breakpoint c
      ∧ Tegra.active_breakpoint c' = Tegra.active_breakpoint c
      ∧ length (Tegra.breakpoints c') = length (Tegra.breakpoints c)
  | _, _ => False
  end.

(** The part of the store that only the two signals may change. *)
Definition same_display (s s' : Store) : Prop :=
  model s' = model s
  ∧ status_text s' = status_text s
  ∧ resume_button_enabled s' = resume_button_enabled s.

(** The store with the label and the button replaced. *)
Definition with_status (text : string) (button : bool) (s : Store) : Store :=
  mkStore (context s) (model s) text button.

(** The store with the model's snapshot replaced. *)
Definition with_model (m : BreakPointModel) (s : Store) : Store :=
  mkStore (context s) m (status_text s) (resume_button_enabled s).

(** A path without a ['/']. *)
Fixpoint no_slash (name : string) : bool :=
  match name with
  | EmptyString => true
  | String c rest => negb (Ascii.eqb c "/"%char) && no_slash rest
  end.

(** * Properties *)

(** ** The breakpoint table behind the model *)

Lemma event_names_size : Z.of_nat (size event_names) = Tegra.NumEvents.
Proof. reflexivity. Qed.

(** The connection types of the constructor, as data: both slots of
    [BreakPointHit] are connected blocking-queued, both slots of [Resumed]
    with the default type.  What these types mean for the emulator thread
    is Qt's scheduling of the two threads and lies outside this file. *)
Lemma connection_types :
  Forall (λ c, c.2 = BlockingQueuedConnection)
         (filter (λ c, c.1.1 = SIGNAL_BreakPointHit) connections)
  ∧ Forall (λ c, c.2 = AutoConnection)
           (filter (λ c, c.1.1 = SIGNAL_Resumed) connections)
  ∧ slots_of SIGNAL_BreakPointHit = [widget_OnBreakPointHit; model_OnBreakPointHit]
  ∧ slots_of SIGNAL_Resumed = [widget_OnResumed; model_OnResumed].
Proof. repeat split; repeat constructor. Qed.

Lemma breakpoint_at_valid c i :
  Tegra.well_formed c → valid_row i →
  ∃ b, Tegra.breakpoints c !! Z.to_nat i = Some b ∧ breakpoint_at c i = Ret b.
Proof.
  intros Hwf [Hlo Hhi]. unfold breakpoint_at.
  rewrite bool_decide_eq_true_2 by done.
  destruct (lookup_lt_is_Some_2 (Tegra.breakpoints c) (Z.to_nat i)) as [b Hb].
  - rewrite Hwf. unfold rowCount in Hhi. lia.
  - exists b. by rewrite Hb.
Qed.

Lemma write_enabled_well_formed r b c :
  Tegra.well_formed c → Tegra.well_formed (write_enabled r b c).
Proof. unfold Tegra.well_formed, write_enabled. simpl. by rewrite length_insert. Qed.

Lemma breakpoint_at_write_same r b c :
  Tegra.well_formed c → valid_row r →
  breakpoint_at (write_enabled r b c) r = Ret (Tegra.mkBreakPoint b).
Proof.
  intros Hwf [Hlo Hhi]. unfold breakpoint_at, write_enabled. simpl.
  rewrite bool_decide_eq_true_2 by done.
  rewrite list_lookup_insert_eq; [done|].
  rewrite Hwf. unfold rowCount in Hhi. lia.
Qed.

Lemma breakpoint_at_write_other r b c j :
  0 ≤ r → j ≠ r →
  breakpoint_at (write_enabled r b c) j = breakpoint_at c j.
Proof.
  intros Hr Hne. unfold breakpoint_at, write_enabled. simpl.
  case_bool_decide; [|done].
  rewrite list_lookup_insert_ne; [done|lia].
Qed.

(** One call on a valid row with the context there: it returns [true],
    writes the flag, and emits one [dataChanged] for the row, delivered
    after the write. *)
Lemma set_check_state_valid s c r checked :
  context s = Some c → Tegra.well_formed c → valid_row r →
  let s' := with_context (write_enabled r (bool_decide (of_checked checked = Checked)) c) s in
  set_check_state r checked s
  = Ret (true, s', [dataChanged (createIndex r 0) (createIndex r 0) s']).
Proof.
  intros Hc Hwf Hr. destruct s as [ctx m st rb]. simpl in Hc. subst ctx.
  destruct (breakpoint_at_valid c r Hwf Hr) as (b & _ & Hb).
  unfold set_check_state, setData, store_enabled, with_context, write_enabled,
    mbind, M_bind, lock, emit_dataChanged, mret, M_ret. simpl.
  rewrite Hb. simpl. by destruct checked.
Qed.

Lemma of_checked_Checked checked : bool_decide (of_checked checked = Checked) = checked.
Proof. by destruct checked. Qed.

Lemma check_state_valid s c k :
  context s = Some c → Tegra.well_formed c → valid_row k →
  ∃ b, enabled_flag s k = Some b ∧ check_state s k = Ret (VCheckState (of_checked b)).
Proof.
  intros Hc Hwf Hk. destruct (breakpoint_at_valid c k Hwf Hk) as (b & _ & Hb).
  exists (Tegra.enabled b). unfold enabled_flag, check_state, data, data_IsEnabled.
  rewrite Hc. simpl. rewrite Hb. simpl. split; [done|]. by destruct (Tegra.enabled b).
Qed.

Lemma with_context_id s c : context s = Some c → with_context c s = s.
Proof. destruct s. simpl. by intros ->. Qed.

Lemma enabled_flag_write s c r b j :
  context s = Some c → Tegra.well_formed c → valid_row r →
  enabled_flag (with_context (write_enabled r b c) s) j
  = if bool_decide (r = j) then Some b else enabled_flag s j.
Proof.
  intros Hc Hwf Hr. unfold enabled_flag. rewrite Hc. simpl.
  case_bool_decide as Hj.
  - subst j. by rewrite breakpoint_at_write_same.
  - rewrite breakpoint_at_write_other; [done|apply Hr|done].
Qed.

(** A whole sequence of calls on valid rows: every call returns [true],
    only the context changes, and each flag ends as the last write to its
    row left it. *)
Lemma set_check_states_run calls :
  ∀ s c,
    context s = Some c → Tegra.well_formed c →
    Forall (λ call, valid_row call.1) calls →
    ∃ c' log,
      Tegra.well_formed c' ∧
      set_check_states calls s
      = Ret (replicate (length calls) true, with_context c' s, log) ∧
      ∀ k init, enabled_flag s k = Some init →
                enabled_flag (with_context c' s) k = Some (last_written k calls init).
Proof.
  induction calls as [|[r checked] rest IH]; intros s c Hc Hwf Hall.
  - exists c, []. rewrite (with_context_id s c Hc). done.
  - apply Forall_cons in Hall as [Hr Hrest]. simpl in Hr.
    pose proof (set_check_state_valid s c r checked Hc Hwf Hr) as Hstep.
    cbv zeta in Hstep. rewrite of_checked_Checked in Hstep.
    set (c1 := write_enabled r checked c) in *.
    destruct (IH (with_context c1 s) c1 eq_refl
                 (write_enabled_well_formed r checked c Hwf) Hrest)
      as (c' & log & Hwf' & Hrun & Hflags).
    exists c', (dataChanged (createIndex r 0) (createIndex r 0) (with_context c1 s) :: log).
    split; [done|]. split.
    + simpl. unfold mbind, M_bind at 1. rewrite Hstep.
      unfold M_bind at 1. rewrite Hrun.
      unfold mret, M_ret. simpl. by rewrite app_nil_r.
    + intros k init Hk. simpl.
      change (with_context c' s) with (with_context c' (with_context c1 s)).
      apply Hflags. unfold c1. rewrite (enabled_flag_write s c r checked k Hc Hwf Hr).
      by case_bool_decide.
Qed.

(** C2.  After any sequence of [set_check_state] calls on valid rows,
    with the context available, every call has returned [true] and
    [check_state k] reads the last value written to row [k], or what
    [breakpoints[k].enabled] held at the start when no call wrote to
    row [k]; and a single write to row [r] leaves the flag of every
    other row as it was. *)
Theorem set_check_state_read_back s c calls k :
  context s = Some c → Tegra.well_formed c →
  Forall (λ call, valid_row call.1) calls → valid_row k →
  ∃ init s' log,
    enabled_flag s k = Some init ∧
    set_check_states calls s = Ret (replicate (length calls) true, s', log) ∧
    check_state s' k = Ret (VCheckState (of_checked (last_written k calls init))) ∧
    ∀ r checked, valid_row r →
      ∃ s1 log1,
        set_check_state r checked s = Ret (true, s1, log1) ∧
        ∀ j, j ≠ r → enabled_flag s1 j = enabled_flag s j.
Proof.
  intros Hc Hwf Hall Hk.
  destruct (check_state_valid s c k Hc Hwf Hk) as (init & Hinit & _).
  destruct (set_check_states_run calls s c Hc Hwf Hall) as (c' & log & Hwf' & Hrun & Hflags).
  exists init, (with_context c' s), log. repeat split; [done..| |].
  - destruct (check_state_valid (with_context c' s) c' k eq_refl Hwf' Hk) as (b & Hb & Hread).
    rewrite (Hflags k init Hinit) in Hb. by simplify_eq.
  - intros r checked Hr.
    pose proof (set_check_state_valid s c r checked Hc Hwf Hr) as Hstep.
    cbv zeta in Hstep. rewrite of_checked_Checked in Hstep.
    eexists _, _. split; [exact Hstep|].
    intros j Hj. rewrite (enabled_flag_write s c r checked j Hc Hwf Hr).
    by rewrite bool_decide_eq_false_2.
Qed.

(** The first scenario of section 8: all breakpoints disabled, row 2 is
    checked, and the other rows stay unchecked. *)
Lemma set_check_state_read_back_witness :
  let s := GraphicsBreakPointsWidget.new Tegra.fresh in
  ∃ init s' log,
    enabled_flag s 2 = Some init ∧
    set_check_states [(2, true)] s = Ret (replicate 1 true, s', log) ∧
    check_state s' 2 = Ret (VCheckState (of_checked (last_written 2 [(2, true)] init))) ∧
    ∀ r checked, valid_row r →
      ∃ s1 log1,
        set_check_state r checked s = Ret (true, s1, log1) ∧
        ∀ j, j ≠ r → enabled_flag s1 j = enabled_flag s j.
Proof.
  apply (set_check_state_read_back (GraphicsBreakPointsWidget.new Tegra.fresh)
           Tegra.fresh [(2, true)] 2).
  - reflexivity.
  - reflexivity.
  - repeat constructor; simpl; unfold rowCount, Tegra.NumEvents; lia.
  - unfold valid_row, rowCount, Tegra.NumEvents; lia.
Defined.

Example toggle_persistence :
  ∃ s log,
    set_check_state 2 true (GraphicsBreakPointsWidget.new Tegra.fresh) = Ret (true, s, log) ∧
    check_state s <$> [0; 1; 2; 3]
    = Ret ∘ VCheckState <$> [Unchecked; Unchecked; Checked; Unchecked] ∧
    enabled_flag s Tegra.IncomingPrimitiveBatch = Some true.
Proof. eexists _, _. split; [reflexivity|]. split; reflexivity. Qed.

(** ** The highlight *)

Lemma background_role s idx :
  data s idx BackgroundRole = Ret highlight
  ↔ at_breakpoint (model s) = true ∧ row idx = active_breakpoint (model s).
Proof.
  unfold data. destruct (at_breakpoint (model s)); simpl.
  - case_bool_decide as Hr; split; intros Hd; try done; by destruct Hd.
  - split; [done|]. by intros [? _].
Qed.

(** C3.  A row has the highlight background exactly when the cached
    [at_breakpoint] is set and the row is the cached [active_breakpoint]:
    among the rows of the model, none is highlighted while
    [at_breakpoint] is false, and row [k] alone is while it is true
    with [active_breakpoint = k] one of the event kinds. *)
Theorem highlight_exactly_active_row s :
  (∀ idx, data s idx BackgroundRole = Ret highlight
          ↔ at_breakpoint (model s) = true ∧ row idx = active_breakpoint (model s))
  ∧ highlighted_rows s
    = if at_breakpoint (model s) && bool_decide (valid_row (active_breakpoint (model s)))
      then [active_breakpoint (model s)]
      else [].
Proof.
  split; [apply background_role|].
  unfold highlighted_rows.
  rewrite (list_filter_iff _
             (λ r, at_breakpoint (model s) = true ∧ r = active_breakpoint (model s)))
    by (intros r; apply background_role).
  change (seqZ 0 rowCount) with [0; 1; 2; 3].
  generalize (active_breakpoint (model s)). intros k.
  destruct (at_breakpoint (model s)); simpl.
  - case_bool_decide as Hv.
    + assert (k = 0 ∨ k = 1 ∨ k = 2 ∨ k = 3) as [->|[->|[->| ->]]]
        by (unfold valid_row, rowCount, Tegra.NumEvents in Hv; lia);
        reflexivity.
    + rewrite !filter_cons, filter_nil.
      repeat case_decide; try done; exfalso; apply Hv;
        unfold valid_row, rowCount, Tegra.NumEvents; lia.
  - rewrite !filter_cons, filter_nil.
    repeat case_decide; try done;
      match goal with H : false = true ∧ _ |- _ => by destruct H end.
Qed.

Example highlight_after_hit :
  ∃ s log,
    deliver_BreakPointHit Tegra.MaxwellCommandProcessed
      (with_context halted_context (GraphicsBreakPointsWidget.new Tegra.fresh))
    = Ret (tt, s, log) ∧
    s = halted_store ∧ highlighted_rows s = [1].
Proof. eexists _, _. split; [reflexivity|]. split; reflexivity. Qed.

(** ** Indexes that name no cell *)

(** C4, as stated, fails.  The background case of [data] looks at the row
    only, so an index in column 1 on the active row is highlighted; the
    [Role_IsEnabled] case looks at the row only as well, so in column 1
    it reads the flag of the row, [true] once the breakpoint is enabled;
    and [setData] guards the column but not the row, so a write at row 4,
    column 0 reaches past the end of the table instead of returning
    [false]. *)
Lemma invalid_index_not_always_null :
  invalid_index (createIndex 1 1)
  ∧ ¬ null_or_unchecked (data halted_store (createIndex 1 1) BackgroundRole)
  ∧ invalid_index (createIndex 4 0)
  ∧ setData (createIndex 4 0) (VCheckState Checked) CheckStateRole halted_store
    ≠ Ret (false, halted_store, [])
  ∧ ¬ null_or_unchecked
        (data (with_context (write_enabled 1 true halted_context) halted_store)
              (createIndex 1 1) Role_IsEnabled).
Proof.
  split; [right; simpl; lia|]. split.
  - intros [H|[H|[H|H]]]; vm_compute in H; discriminate.
  - split; [left; unfold valid_row, rowCount, Tegra.NumEvents; simpl; lia|].
    split; [vm_compute; discriminate|].
    intros [H|[H|[H|H]]]; vm_compute in H; discriminate.
Qed.

Lemma setData_other_role idx v role s :
  role ≠ CheckStateRole → setData idx v role s = Ret (false, s, []).
Proof. by destruct role. Qed.

Lemma setData_other_column idx v role s :
  column idx ≠ 0 → setData idx v role s = Ret (false, s, []).
Proof.
  intros Hcol. destruct role; try done.
  unfold setData. by rewrite bool_decide_eq_true_2.
Qed.

Lemma setData_no_context idx v role s :
  context s = None → setData idx v role s = Ret (false, s, []).
Proof.
  intros Hc. destruct role; try done.
  unfold setData. case_bool_decide; [done|].
  unfold mbind, M_bind, lock. by rewrite Hc.
Qed.

Lemma event_names_outside r :
  ¬ valid_row r → default ""%string (event_names !! r) = ""%string.
Proof.
  intros Hr. unfold valid_row, rowCount, Tegra.NumEvents in Hr.
  unfold event_names, Tegra.MaxwellCommandLoaded, Tegra.MaxwellCommandProcessed,
    Tegra.IncomingPrimitiveBatch, Tegra.FinishedPrimitiveBatch. simpl.
  rewrite !lookup_insert_ne by lia. by rewrite lookup_empty.
Qed.

Lemma data_IsEnabled_flag s idx b :
  enabled_flag s (row idx) = Some b → data s idx Role_IsEnabled = Ret (VBool b).
Proof.
  unfold enabled_flag, data, data_IsEnabled.
  destruct (context s) as [c|]; [|done].
  destruct (breakpoint_at c (row idx)); [|done]. by intros [= ->].
Qed.

(** C4, amended.  For an index that names no cell:
    - in a column other than 0, the text and the check state read as the
      null variant, and every write returns [false], emits nothing and
      changes nothing;
    - in column 0 (so with a row outside the model), the text is empty,
      the background is null when the cached [active_breakpoint] is an
      event kind, and, the context being unavailable, the check state
      reads unchecked and every write returns [false], emits nothing and
      changes nothing;
    - [flags] of an index that is not valid are empty, and a write at a
      role other than the check state returns [false] and changes
      nothing;
    - in any column, the background is null unless the model is at a
      breakpoint and the row of the index is the cached
      [active_breakpoint]; a role that [data] does not name reads as the
      null variant; and [Role_IsEnabled] reads [false] when the context
      is unavailable and otherwise the flag of the row of the index,
      whatever the column.
    Reads are functions of the store and cannot change it. *)
Theorem invalid_index_guarded s idx :
  invalid_index idx →
  (column idx ≠ 0 →
     data s idx DisplayRole = Ret Invalid
     ∧ data s idx CheckStateRole = Ret Invalid
     ∧ ∀ v role, setData idx v role s = Ret (false, s, []))
  ∧ (column idx = 0 →
       data s idx DisplayRole = Ret (VString "")
       ∧ (valid_row (active_breakpoint (model s)) →
            data s idx BackgroundRole = Ret Invalid)
       ∧ (context s = None →
            data s idx CheckStateRole = Ret (VCheckState Unchecked)
            ∧ ∀ v role, setData idx v role s = Ret (false, s, [])))
  ∧ (isValid idx = false → flags idx = NoItemFlags)
  ∧ (∀ v role, role ≠ CheckStateRole → setData idx v role s = Ret (false, s, []))
  ∧ (¬ (at_breakpoint (model s) = true ∧ row idx = active_breakpoint (model s)) →
       data s idx BackgroundRole = Ret Invalid)
  ∧ (∀ n, data s idx (OtherRole n) = Ret Invalid)
  ∧ (context s = None → data s idx Role_IsEnabled = Ret (VBool false))
  ∧ (∀ b, enabled_flag s (row idx) = Some b →
          data s idx Role_IsEnabled = Ret (VBool b)).
Proof.
  intros Hinv. split; [|split; [|split; [|split; [|split; [|split; [|split]]]]]].
  - intros Hcol. unfold data. rewrite !bool_decide_eq_false_2 by done.
    split; [done|]. split; [done|].
    intros v role. by apply setData_other_column.
  - intros Hcol.
    assert (Hrow : ¬ valid_row (row idx)) by (destruct Hinv; [done|congruence]).
    split; [|split].
    + unfold data. rewrite bool_decide_eq_true_2 by done.
      by rewrite event_names_outside.
    + intros Hact. unfold data.
      destruct (at_breakpoint (model s)); [|done]. simpl.
      rewrite bool_decide_eq_false_2; [done|].
      intros Heq. apply Hrow. by rewrite Heq.
    + intros Hc. split.
      * unfold data, data_IsEnabled. rewrite bool_decide_eq_true_2 by done.
        by rewrite Hc.
      * intros v role. by apply setData_no_context.
  - intros Hval. unfold flags. by rewrite Hval.
  - intros v role Hrole. by apply setData_other_role.
  - intros Hoff. destruct (data s idx BackgroundRole) as [v|] eqn:Hread.
    + unfold data in Hread.
      destruct (_ && _) eqn:Hcond; [|congruence].
      exfalso. apply Hoff. apply andb_true_iff in Hcond as [Hat Heq].
      by apply bool_decide_eq_true in Heq.
    + unfold data in Hread. by destruct (_ && _).
  - done.
  - intros Hc. unfold data, data_IsEnabled. by rewrite Hc.
  - intros b. apply data_IsEnabled_flag.
Qed.

Lemma invalid_index_guarded_witness :
  invalid_index invalidIndex
  ∧ data halted_store invalidIndex CheckStateRole = Ret Invalid
  ∧ setData invalidIndex (VCheckState Checked) CheckStateRole halted_store
    = Ret (false, halted_store, [])
  ∧ flags invalidIndex = NoItemFlags
  ∧ data halted_store invalidIndex BackgroundRole = Ret Invalid
  ∧ data halted_store invalidIndex (OtherRole 3) = Ret Invalid
  ∧ data orphaned_store invalidIndex Role_IsEnabled = Ret (VBool false).
Proof.
  assert (Hinv : invalid_index invalidIndex) by (right; simpl; lia).
  destruct (invalid_index_guarded halted_store invalidIndex Hinv)
    as (Hcol & _ & Hflags & _ & Hback & Hother & _).
  destruct (invalid_index_guarded orphaned_store invalidIndex Hinv)
    as (_ & _ & _ & _ & _ & _ & Hgone & _).
  destruct Hcol as (_ & Hcheck & Hset); [simpl; lia|].
  split; [exact Hinv|]. split; [exact Hcheck|]. split; [apply Hset|].
  split; [apply Hflags; reflexivity|].
  split; [apply Hback; simpl; intros [_ Heq]; discriminate|].
  split; [apply Hother|]. apply Hgone. reflexivity.
Defined.

(** ** A context that is gone *)

Lemma check_state_no_context s r :
  context s = None → check_state s r = Ret (VCheckState Unchecked).
Proof. intros Hc. unfold check_state, data, data_IsEnabled. by rewrite Hc. Qed.

Lemma OnItemDoubleClicked_no_context s idx :
  context s = None →
  GraphicsBreakPointsWidget.OnItemDoubleClicked idx s = Ret (tt, s, []).
Proof.
  intros Hc. unfold GraphicsBreakPointsWidget.OnItemDoubleClicked.
  destruct (isValid idx); [|done]. cbv beta zeta iota. unfold negb.
  assert (∃ v, data s (index (row idx) 0) CheckStateRole = Ret v) as [v ->].
  { unfold index. destruct (hasIndex (row idx) 0); [|by eexists].
    fold (check_state s (row idx)). rewrite check_state_no_context by done.
    by eexists. }
  unfold mbind, M_bind. by rewrite setData_no_context.
Qed.

(** C5.  When the weak reference cannot be promoted, each operation that
    goes through it does nothing: [setData] (and so [set_check_state])
    returns [false] and emits nothing, the check state reads unchecked,
    a Resume request makes no call, the model's hit and resume handlers
    leave the snapshot alone, and a double click changes nothing.  The
    store after each of them is the store before. *)
Theorem context_unavailable_noop s :
  context s = None →
  (∀ idx v role, setData idx v role s = Ret (false, s, []))
  ∧ (∀ r checked, set_check_state r checked s = Ret (false, s, []))
  ∧ (∀ r, check_state s r = Ret (VCheckState Unchecked))
  ∧ GraphicsBreakPointsWidget.OnResumeRequested s = Ret (tt, s, [])
  ∧ (∀ event, OnBreakPointHit event s = Ret (tt, s, []))
  ∧ OnResumed s = Ret (tt, s, [])
  ∧ (∀ idx, GraphicsBreakPointsWidget.OnItemDoubleClicked idx s = Ret (tt, s, [])).
Proof.
  intros Hc.
  split; [intros idx v role; by apply setData_no_context|].
  split; [intros r checked; by apply setData_no_context|].
  split; [intros r; by apply check_state_no_context|].
  split; [unfold GraphicsBreakPointsWidget.OnResumeRequested, mbind, M_bind, lock;
          by rewrite Hc|].
  split; [intros event; unfold OnBreakPointHit, mbind, M_bind, lock; by rewrite Hc|].
  split; [unfold OnResumed, mbind, M_bind, lock; by rewrite Hc|].
  intros idx. by apply OnItemDoubleClicked_no_context.
Qed.

Lemma context_unavailable_noop_witness :
  context orphaned_store = None
  ∧ set_check_state 2 true orphaned_store = Ret (false, orphaned_store, [])
  ∧ check_state orphaned_store 2 = Ret (VCheckState Unchecked)
  ∧ GraphicsBreakPointsWidget.OnResumeRequested orphaned_store = Ret (tt, orphaned_store, [])
  ∧ OnResumed orphaned_store = Ret (tt, orphaned_store, []).
Proof.
  destruct (context_unavailable_noop orphaned_store eq_refl)
    as (_ & Hset & Hread & Hreq & _ & Hres & _).
  split; [reflexivity|]. split; [apply Hset|]. split; [apply Hread|].
  split; [exact Hreq|exact Hres].
Defined.

(** The panel keeps rendering the last snapshot: with the context gone,
    the row that was active stays highlighted, and the widget's own
    handlers, which never touch the context, still update the label and
    the button. *)
Example orphaned_panel :
  highlighted_rows orphaned_store = [1]
  ∧ deliver_Resumed orphaned_store
    = Ret (tt, mkStore None (model orphaned_store) "Emulation running" false, []).
Proof. split; reflexivity. Qed.

(** ** The order of the resume handler *)

(** C8, as stated, fails: by the time [OnResumed] emits, it has already
    taken [at_breakpoint] from the context, so the store the view finds
    is not the one the handler started from. *)
Lemma OnResumed_rereads_before_emitting : ¬ emits_before_rereading resuming_store.
Proof.
  intros [s' H]. vm_compute in H. discriminate.
Qed.

(** C8, amended.  With the context available, [OnResumed] first takes
    [at_breakpoint] from the context, then emits [dataChanged] for the
    row that was active until now, and only then takes
    [active_breakpoint] from the context.  The view is therefore asked to
    repaint the previously active row while the model still names that
    row but already carries the context's [at_breakpoint]: the row is
    highlighted at that moment exactly when the context still says it is
    at a breakpoint. *)
Theorem OnResumed_order s c :
  context s = Some c →
  let previous := createIndex (active_breakpoint (model s)) 0 in
  let seen :=
    mkStore (context s)
            (mkModel (Tegra.at_breakpoint c) (active_breakpoint (model s)))
            (status_text s) (resume_button_enabled s) in
  let final :=
    mkStore (context s) (BreakPointModel_new c)
            (status_text s) (resume_button_enabled s) in
  OnResumed s = Ret (tt, final, [dataChanged previous previous seen])
  ∧ data seen previous BackgroundRole
    = (if Tegra.at_breakpoint c then Ret highlight else Ret Invalid).
Proof.
  intros Hc. destruct s as [ctx m st rb]. simpl in Hc. subst ctx. split.
  - reflexivity.
  - unfold data. simpl. rewrite bool_decide_eq_true_2 by done.
    by destruct (Tegra.at_breakpoint c).
Qed.

Lemma OnResumed_order_witness :
  context resuming_store = Some Tegra.fresh
  ∧ OnResumed resuming_store
    = Ret (tt,
           mkStore (Some Tegra.fresh) (mkModel false 0)
                   "Emulation halted at breakpoint" true,
           [dataChanged (createIndex 1 0) (createIndex 1 0)
              (mkStore (Some Tegra.fresh) (mkModel false 1)
                       "Emulation halted at breakpoint" true)])
  ∧ data (mkStore (Some Tegra.fresh) (mkModel false 1)
                  "Emulation halted at breakpoint" true)
         (createIndex 1 0) BackgroundRole
    = Ret Invalid.
Proof.
  split; [reflexivity|].
  exact (OnResumed_order resuming_store Tegra.fresh eq_refl).
Defined.

(** The counterpart on a hit: both fields are taken from the context
    before the row of the event is announced. *)
Lemma OnBreakPointHit_order s c event :
  context s = Some c →
  let final :=
    mkStore (context s) (BreakPointModel_new c)
            (status_text s) (resume_button_enabled s) in
  OnBreakPointHit event s
  = Ret (tt, final, [dataChanged (createIndex event 0) (createIndex event 0) final]).
Proof. intros Hc. destruct s as [ctx m st rb]. simpl in Hc. by subst ctx. Qed.

(** Scenario 2 of section 8, on the UI thread: a hit on
    [MaxwellCommandProcessed], then the resume. *)
Example hit_then_resume :
  ∃ s1 log1 s2 log2,
    deliver_BreakPointHit Tegra.MaxwellCommandProcessed
      (with_context halted_context (GraphicsBreakPointsWidget.new Tegra.fresh))
    = Ret (tt, s1, log1)
    ∧ status_text s1 = "Emulation halted at breakpoint"%string
    ∧ resume_button_enabled s1 = true
    ∧ highlighted_rows s1 = [1]
    ∧ GraphicsBreakPointsWidget.OnResumeRequested s1 = Ret (tt, s1, [Resume])
    ∧ deliver_Resumed (with_context Tegra.fresh s1) = Ret (tt, s2, log2)
    ∧ status_text s2 = "Emulation running"%string
    ∧ resume_button_enabled s2 = false
    ∧ highlighted_rows s2 = [].
Proof. eexists _, _, _, _. repeat split; reflexivity. Qed.

(** Scenario 6: a double click toggles the row and announces it once. *)
Example double_click_toggles :
  let s0 := GraphicsBreakPointsWidget.new Tegra.fresh in
  let s1 := with_context (write_enabled 3 true Tegra.fresh) s0 in
  let s2 := with_context (write_enabled 3 false (write_enabled 3 true Tegra.fresh)) s0 in
  let i := createIndex 3 0 in
  GraphicsBreakPointsWidget.OnItemDoubleClicked i s0 = Ret (tt, s1, [dataChanged i i s1])
  ∧ check_state s1 3 = Ret (VCheckState Checked)
  ∧ GraphicsBreakPointsWidget.OnItemDoubleClicked i s1 = Ret (tt, s2, [dataChanged i i s2])
  ∧ check_state s2 3 = Ret (VCheckState Unchecked).
Proof. repeat split; reflexivity. Qed.

(** ** The install dialog *)

Section InstallDialog.

Import Install.

Variable rendered_width : string → Z.

Lemma add_files l (files : list string) :
  foldl add_file l files
  = mkList (items l ++ (file_item <$> files)) (minimumWidth l) (width l).
Proof.
  revert l. induction files as [|file files IH]; intros l; simpl.
  - rewrite app_nil_r. by destruct l.
  - rewrite IH. simpl. by rewrite <-(assoc_L (++)).
Qed.

Lemma items_setMinimumWidth minw l : items (setMinimumWidth minw l) = items l.
Proof.
  unfold setMinimumWidth. by repeat (destruct (bool_decide _); simpl).
Qed.

Lemma items_new (files : list string) :
  items (file_list (new rendered_width files)) = file_item <$> files.
Proof. unfold new. simpl. by rewrite items_setMinimumWidth, add_files. Qed.

Lemma item_path_file_item (files : list string) : item_path <$> (file_item <$> files) = files.
Proof. induction files as [|f files IH]; [done|]. by rewrite !fmap_cons, IH. Qed.

(** The user's actions keep the items, their order and their paths;
    only check states, the result code and the width change. *)
Lemma item_path_step d a :
  item_path <$> items (file_list (step d a)) = item_path <$> items (file_list d).
Proof.
  destruct a; simpl; try done.
  rewrite (list_fmap_alter item_path _ id) by (by apply Forall_true).
  by apply list_alter_id.
Qed.

Lemma item_path_run actions d :
  item_path <$> items (file_list (run actions d)) = item_path <$> items (file_list d).
Proof.
  revert d. induction actions as [|a actions IH]; intros d; [done|].
  unfold run in *. simpl. by rewrite IH, item_path_step.
Qed.

(** The loop of [GetFiles], from position [length done_] on. *)
Lemma GetFiles_loop (rest : list QListWidgetItem) :
  ∀ done_ minw w acc,
    foldl (GetFiles_step (mkList (done_ ++ rest) minw w)) (Some acc)
          (seqZ (Z.of_nat (length done_)) (Z.of_nat (length rest)))
    = Some (acc ++ (item_path <$> filter (λ it, checkState it = Checked) rest)).
Proof.
  induction rest as [|it rest IH]; intros done_ minw w acc.
  - simpl. by rewrite app_nil_r.
  - rewrite seqZ_cons by (simpl; lia). simpl foldl.
    assert (Hitem : item (mkList (done_ ++ it :: rest) minw w) (Z.of_nat (length done_))
                    = Some it).
    { unfold item. rewrite bool_decide_eq_true_2 by lia. simpl.
      rewrite Nat2Z.id. by apply list_lookup_middle. }
    rewrite Hitem. simpl.
    replace (Z.succ (Z.of_nat (length done_))) with (Z.of_nat (length (done_ ++ [it])))
      by (rewrite length_app; simpl; lia).
    replace (Z.pred (Z.of_nat (S (length rest)))) with (Z.of_nat (length rest))
      by lia.
    replace (done_ ++ it :: rest) with ((done_ ++ [it]) ++ rest)
      by (by rewrite <-(assoc_L (++))).
    case_bool_decide as Hchecked.
    + rewrite IH, filter_cons_True by done. simpl. by rewrite <-(assoc_L (++)).
    + by rewrite IH, filter_cons_False.
Qed.

(** [GetFiles] never fails, whatever the dialog holds: it returns the
    paths of the checked items, in list order. *)
Lemma GetFiles_checked d :
  GetFiles d
  = Some (item_path <$> filter (λ it, checkState it = Checked) (items (file_list d))).
Proof.
  destruct d as [[its minw w] res]. unfold GetFiles, count. simpl.
  apply (GetFiles_loop its [] minw w []).
Qed.

Lemma checked_paths_items (its : list QListWidgetItem) :
  item_path <$> filter (λ it, checkState it = Checked) its
  = checked_paths (item_path <$> its) (checkState <$> its).
Proof.
  unfold checked_paths. induction its as [|it its IH]; [done|].
  rewrite !fmap_cons.
  change (zip (item_path it :: (item_path <$> its)) (checkState it :: (checkState <$> its)))
    with ((item_path it, checkState it) :: zip (item_path <$> its) (checkState <$> its)).
  destruct (decide (checkState it = Checked)) as [Hc|Hc].
  - rewrite !filter_cons_True by done. by rewrite !fmap_cons, IH.
  - by rewrite !filter_cons_False.
Qed.

Lemma checked_paths_sublist files states : checked_paths files states `sublist_of` files.
Proof.
  unfold checked_paths.
  transitivity ((zip files states).*1).
  - apply fmap_sublist, sublist_filter.
  - revert states. induction files as [|f files IH]; intros [|c states]; simpl;
      try constructor; try apply sublist_nil_l. apply IH.
Qed.

Lemma GetFiles_reachable files actions :
  let d := run actions (new rendered_width files) in
  length (check_states d) = length files
  ∧ GetFiles d = Some (checked_paths files (check_states d)).
Proof.
  intros d.
  assert (Hpaths : item_path <$> items (file_list d) = files).
  { unfold d. by rewrite item_path_run, items_new, item_path_file_item. }
  split.
  - unfold check_states. rewrite length_fmap.
    by rewrite <-(length_fmap item_path (items (file_list d))), Hpaths.
  - rewrite GetFiles_checked, checked_paths_items. by rewrite Hpaths.
Qed.

(** C6.  Whatever the input paths and whatever the user has done to the
    dialog since, the items still stand for the input paths position by
    position, and [GetFiles] returns the paths whose item is checked, in
    input order: a subsequence of the input. *)
Theorem GetFiles_checked_in_order files actions :
  let d := run actions (new rendered_width files) in
  length (check_states d) = length files
  ∧ GetFiles d = Some (checked_paths files (check_states d))
  ∧ checked_paths files (check_states d) `sublist_of` files.
Proof.
  intros d. destruct (GetFiles_reachable files actions) as [Hlen Hget].
  split; [exact Hlen|]. split; [exact Hget|]. apply checked_paths_sublist.
Qed.

(** Every assignment of check states can be reached by the user. *)
Lemma check_states_setCheckState i c d :
  check_states (setCheckState i c d) = <[i:=c]> (check_states d).
Proof.
  unfold check_states, setCheckState. simpl.
  generalize (items (file_list d)) as its. intros its. revert i.
  induction its as [|it its IH]; intros [|i]; csimpl; f_equal; auto.
Qed.

Lemma run_snoc actions a d : run (actions ++ [a]) d = step (run actions d) a.
Proof. unfold run. by rewrite foldl_snoc. Qed.

Lemma assignment_prefix_reachable (files : list string) (states : list CheckState) :
  (length states ≤ length files)%nat →
  ∃ actions,
    check_states (run actions (new rendered_width files))
    = states ++ drop (length states) (check_states (new rendered_width files)).
Proof.
  assert (Hlen0 : length (check_states (new rendered_width files)) = length files).
  { unfold check_states. by rewrite items_new, !length_fmap. }
  induction states as [|c states IH] using rev_ind; intros Hlen.
  - exists []. by rewrite drop_0.
  - rewrite length_app in Hlen. simpl in Hlen.
    destruct IH as [actions Hrun]; [lia|].
    exists (actions ++ [SetCheckState (length states) c]).
    rewrite run_snoc. simpl. rewrite check_states_setCheckState, Hrun.
    destruct (drop (length states) (check_states (new rendered_width files)))
      as [|c0 rest] eqn:Hdrop.
    { apply (f_equal length) in Hdrop. rewrite length_drop in Hdrop. simpl in Hdrop. lia. }
    rewrite insert_app_r_alt, Nat.sub_diag by lia. simpl.
    rewrite <-(assoc_L (++)). simpl. do 2 f_equal.
    rewrite length_app. simpl. by rewrite <-drop_drop, Hdrop.
Qed.

Lemma every_assignment_reachable (files : list string) (states : list CheckState) :
  length states = length files →
  ∃ actions, check_states (run actions (new rendered_width files)) = states.
Proof.
  intros Hlen.
  destruct (assignment_prefix_reachable files states) as [actions Hrun]; [lia|].
  exists actions. rewrite Hrun, drop_ge, app_nil_r; [done|].
  unfold check_states. rewrite items_new, !length_fmap. lia.
Qed.

Lemma file_items_all_checked (files : list string) :
  filter (λ it, checkState it = Checked) (file_item <$> files) = file_item <$> files.
Proof.
  induction files as [|f files IH]; [done|].
  rewrite fmap_cons, filter_cons_True by done. by rewrite IH.
Qed.

(** C7.  The constructor leaves every item checked, so reading the
    dialog before any check state has changed, accepted or not, gives
    back the input list as it came in. *)
Theorem GetFiles_after_construction (files : list string) :
  Forall (λ it, checkState it = Checked) (items (file_list (new rendered_width files)))
  ∧ GetFiles (new rendered_width files) = Some files
  ∧ GetFiles (accept (new rendered_width files)) = Some files.
Proof.
  assert (Hall : Forall (λ it, checkState it = Checked) (file_item <$> files)).
  { apply Forall_fmap, Forall_true. done. }
  assert (Hget : ∀ d, items (file_list d) = file_item <$> files → GetFiles d = Some files).
  { intros d Hitems. rewrite GetFiles_checked, Hitems.
    by rewrite file_items_all_checked, item_path_file_item. }
  rewrite items_new. split; [exact Hall|].
  split; apply Hget; simpl; apply items_new.
Qed.

(** C10.  [GetFiles] asks for nothing: on any dialog it returns a list;
    accepting, rejecting or resizing the dialog does not change what it
    returns; and at any point after construction, before a terminal
    action as well as after Install or Cancel, it returns the input
    paths whose item is checked at that point, in input order. *)
Theorem GetFiles_total_without_accept :
  (∀ d, ∃ accepted, GetFiles d = Some accepted)
  ∧ (∀ d, GetFiles (accept d) = GetFiles d
          ∧ GetFiles (reject d) = GetFiles d
          ∧ ∀ w, GetFiles (resize w d) = GetFiles d)
  ∧ (∀ d1 d2, items (file_list d1) = items (file_list d2) → GetFiles d1 = GetFiles d2)
  ∧ (∀ files actions,
       let d := run actions (new rendered_width files) in
       GetFiles d = Some (checked_paths files (check_states d))).
Proof.
  split; [intros d; eexists; apply GetFiles_checked|].
  split; [intros d; split; [|split; [|intros w]]; by rewrite !GetFiles_checked|].
  split; [intros d1 d2 Hitems; by rewrite !GetFiles_checked, Hitems|].
  intros files actions. apply GetFiles_reachable.
Qed.

(** *** The minimum width *)





Lemma setMinimumWidth_width minw l :
  minimumWidth l ≤ width l →
  minimumWidth (setMinimumWidth minw l) ≤ width (setMinimumWidth minw l).
Proof.
  intros Hl. unfold setMinimumWidth, QWIDGETSIZE_MAX.
  repeat (case_bool_decide; simpl); lia.
Qed.


(** The list is never narrower than its minimum. *)
Lemma width_at_least_minimum (files : list string) actions :
  let d := run actions (new rendered_width files) in
  minimumWidth (file_list d) ≤ GetMinimumWidth d.
Proof.
  intros d. unfold d, GetMinimumWidth. clear d.
  assert (H0 : minimumWidth (file_list (new rendered_width files))
               ≤ width (file_list (new rendered_width files))).
  { unfold new. simpl. apply setMinimumWidth_width.
    rewrite add_files. simpl. lia. }
  revert H0. generalize (new rendered_width files) as d0. intros d0 H0.
  induction actions as [|a actions IH] using rev_ind; [done|].
  rewrite run_snoc. destruct a; simpl; try done. lia.
Qed.

End InstallDialog.

(** Scenario 4 of section 8. *)
Example install_accept :
  let d := Install.new Install.eight_pixels ["/a/x.nsp"; "/b/y.nsp"; "/c/z.nsp"]%string in
  Install.text <$> Install.items (Install.file_list d) = ["x.nsp"; "y.nsp"; "z.nsp"]%string
  ∧ Install.check_states d = [Checked; Checked; Checked]
  ∧ Install.GetFiles (Install.accept (Install.setCheckState 1 Unchecked d))
    = Some ["/a/x.nsp"; "/c/z.nsp"]%string.
Proof. repeat split; reflexivity. Qed.

(** C9.  Where the code parts from the claim: the minimum width of the
    list is set as the claim says (here [40 * 11 / 10 = 44] for the one
    basename, five characters of eight pixels), but [GetMinimumWidth]
    returns the width the list currently has; once the layout has given
    the list 300 pixels, that is what the accessor reports. *)
Lemma GetMinimumWidth_returns_current_width :
  let d := Install.resize 300 (Install.new Install.eight_pixels ["/a/x.nsp"%string]) in
  Install.minimumWidth (Install.file_list d) = 44
  ∧ Install.GetMinimumWidth d = 300.
Proof. split; reflexivity. Qed.

(** * Further properties of the breakpoint panel *)

(** ** What a write does, case by case *)

Lemma setData_unfold idx v role s :
  setData idx v role s
  = match role with
    | CheckStateRole =>
        if bool_decide (column idx ≠ 0) then Ret (false, s, [])
        else
          match context s with
          | None => Ret (false, s, [])
          | Some c =>
              match breakpoint_at c (row idx) with
              | OutOfBounds => OutOfBounds
              | Ret _ =>
                  let s' := with_context
                              (write_enabled (row idx)
                                 (equals_CheckState v Checked) c) s in
                  let i := createIndex (row idx) 0 in
                  Ret (true, s', [dataChanged i i s'])
              end
          end
    | _ => Ret (false, s, [])
    end.
Proof.
  destruct role; try done. unfold setData.
  case_bool_decide; [done|].
  destruct s as [[c|] m st rb]; [|done].
  unfold mbind, M_bind, lock, store_enabled, emit_dataChanged, with_context, write_enabled.
  simpl. by destruct (breakpoint_at c (row idx)).
Qed.

Lemma hasIndex_valid r c : hasIndex r c = true ↔ valid_row r ∧ c = 0.
Proof.
  unfold hasIndex, valid_row, columnCount.
  rewrite !andb_true_iff, !bool_decide_eq_true. lia.
Qed.

Lemma index_cell r : valid_row r → index r 0 = createIndex r 0.
Proof. intros Hr. unfold index. by rewrite (proj2 (hasIndex_valid r 0)). Qed.

Lemma index_outside r c : ¬ (valid_row r ∧ c = 0) → index r c = invalidIndex.
Proof.
  intros Hn. unfold index. destruct (hasIndex r c) eqn:Hh; [|done].
  by apply hasIndex_valid in Hh.
Qed.

(** X1.  The display text tells the rows of the model from everything
    else: in column 0 a row has a non-empty name exactly when it is one
    of the [NumEvents] rows, two rows never share a name, and the table
    has one entry per event kind, as the source asserts. *)
Theorem display_text_names_the_rows s :
  (∀ r, valid_row r
        ↔ ∃ name, name ≠ ""%string
                  ∧ data s (createIndex r 0) DisplayRole = Ret (VString name))
  ∧ (∀ r1 r2, valid_row r1 →
       data s (createIndex r1 0) DisplayRole = data s (createIndex r2 0) DisplayRole →
       r1 = r2)
  ∧ Z.of_nat (size event_names) = Tegra.NumEvents.
Proof.
  assert (Hcases : ∀ r, valid_row r → r = 0 ∨ r = 1 ∨ r = 2 ∨ r = 3).
  { unfold valid_row, rowCount, Tegra.NumEvents. lia. }
  split; [|split; [|done]].
  - intros r. split.
    + intros Hr. destruct (Hcases r Hr) as [->|[->|[->| ->]]];
        eexists; (split; [|reflexivity]); done.
    + intros (name & Hne & Hname).
      destruct (decide (valid_row r)) as [|Hout]; [done|].
      unfold data in Hname. simpl in Hname.
      rewrite event_names_outside in Hname by done. congruence.
  - intros r1 r2 Hr1 Heq.
    destruct (decide (valid_row r2)) as [Hr2|Hout].
    + destruct (Hcases r1 Hr1) as [->|[->|[->| ->]]];
        destruct (Hcases r2 Hr2) as [->|[->|[->| ->]]];
        try done; vm_compute in Heq; discriminate.
    + unfold data in Heq. simpl in Heq.
      rewrite (event_names_outside r2) in Heq by done.
      destruct (Hcases r1 Hr1) as [->|[->|[->| ->]]]; vm_compute in Heq; discriminate.
Qed.

(** X2.  Every index the model hands out through [index] is either a
    cell, enabled and user-checkable and nothing more, or the invalid
    index, with no flags at all; a cell of this model is always in
    column 0. *)
Theorem flags_of_own_indexes r c :
  flags (index r c)
  = (if hasIndex r c then Z.lor ItemIsEnabled ItemIsUserCheckable else NoItemFlags)
  ∧ (hasIndex r c = true → column (index r c) = 0 ∧ valid_row (row (index r c))).
Proof.
  unfold index. destruct (hasIndex r c) eqn:Hh.
  - apply hasIndex_valid in Hh as [Hr ->]. split; [|done].
    unfold flags, isValid. simpl.
    destruct Hr as [Hlo _]. by rewrite (proj2 (Z.leb_le 0 r) Hlo).
  - split; [done|]. intros; discriminate.
Qed.

(** X3.  On a cell of the model nothing is ever read or written outside
    the table: with a well-formed store, [data] returns a value at every
    role and [setData] returns at every role and for every value. *)
Theorem cells_stay_in_bounds s r :
  store_well_formed s → valid_row r →
  (∀ role, ∃ v, data s (index r 0) role = Ret v)
  ∧ (∀ v role, ∃ ok s' log,
       setData (index r 0) v role s = Ret (ok, s', log) ∧ store_well_formed s').
Proof.
  intros Hwf Hr. rewrite (index_cell r Hr). unfold store_well_formed in Hwf.
  split.
  - intros role. unfold data, data_IsEnabled. simpl.
    destruct (context s) as [c|] eqn:Hc.
    + destruct (breakpoint_at_valid c r Hwf Hr) as (b & _ & ->).
      destruct role; try (by eexists).
      destruct (_ && _); by eexists.
    + destruct role; try (by eexists). destruct (_ && _); by eexists.
  - intros v role. rewrite setData_unfold. simpl.
    destruct role; try (by eexists _, _, _).
    destruct (context s) as [c|] eqn:Hc.
    + destruct (breakpoint_at_valid c r Hwf Hr) as (b & _ & ->).
      eexists _, _, _. split; [done|].
      unfold store_well_formed, with_context. simpl.
      by apply write_enabled_well_formed.
    + eexists _, _, _. split; [done|]. unfold store_well_formed. by rewrite Hc.
Qed.

Lemma cells_stay_in_bounds_witness :
  (∀ role, ∃ v, data halted_store (index 3 0) role = Ret v)
  ∧ (∀ v role, ∃ ok s' log,
       setData (index 3 0) v role halted_store = Ret (ok, s', log)
       ∧ store_well_formed s').
Proof.
  apply (cells_stay_in_bounds halted_store 3).
  - reflexivity.
  - unfold valid_row, rowCount, Tegra.NumEvents. lia.
Defined.




(** ** How writes compose *)

Lemma set_check_states_two s c r1 b1 r2 b2 :
  context s = Some c → Tegra.well_formed c → valid_row r1 → valid_row r2 →
  ∃ log,
    set_check_states [(r1, b1); (r2, b2)] s
    = Ret ([true; true], with_context (write_enabled r2 b2 (write_enabled r1 b1 c)) s, log)
    ∧ length log = 2%nat.
Proof.
  intros Hc Hwf Hr1 Hr2.
  pose proof (set_check_state_valid s c r1 b1 Hc Hwf Hr1) as H1.
  cbv zeta in H1. rewrite of_checked_Checked in H1.
  pose proof (set_check_state_valid (with_context (write_enabled r1 b1 c) s)
                (write_enabled r1 b1 c) r2 b2 eq_refl
                (write_enabled_well_formed r1 b1 c Hwf) Hr2) as H2.
  cbv zeta in H2. rewrite of_checked_Checked in H2.
  eexists. simpl. unfold mbind, M_bind, mret, M_ret.
  rewrite H1, H2. simpl. split; reflexivity.
Qed.

(** X5.  Writes to two different rows can be made in either order, and
    a second write to a row overrides the first: the breakpoint table
    and the rest of the store end up the same. *)
Theorem set_check_state_compose s c r1 b1 r2 b2 :
  context s = Some c → Tegra.well_formed c → valid_row r1 → valid_row r2 →
  ∃ s12 s21 log12 log21,
    set_check_states [(r1, b1); (r2, b2)] s = Ret ([true; true], s12, log12)
    ∧ set_check_states [(r2, b2); (r1, b1)] s = Ret ([true; true], s21, log21)
    ∧ (r1 ≠ r2 → s12 = s21)
    ∧ (r1 = r2 → ∃ log2, set_check_states [(r2, b2)] s = Ret ([true], s12, log2)).
Proof.
  intros Hc Hwf Hr1 Hr2.
  destruct (set_check_states_two s c r1 b1 r2 b2 Hc Hwf Hr1 Hr2) as (log12 & H12 & _).
  destruct (set_check_states_two s c r2 b2 r1 b1 Hc Hwf Hr2 Hr1) as (log21 & H21 & _).
  eexists _, _, _, _. split; [exact H12|]. split; [exact H21|]. split.
  - intros Hne. unfold with_context, write_enabled. simpl. do 3 f_equal.
    destruct Hr1, Hr2. symmetry. apply list_insert_insert_ne. lia.
  - intros ->.
    pose proof (set_check_state_valid s c r2 b2 Hc Hwf Hr2) as H2.
    cbv zeta in H2. rewrite of_checked_Checked in H2.
    eexists. simpl. unfold mbind, M_bind, mret, M_ret. rewrite H2. simpl.
    unfold with_context, write_enabled. simpl.
    by rewrite list_insert_insert_eq.
Qed.

Lemma set_check_state_compose_witness :
  ∃ s12 s21 log12 log21,
    set_check_states [(0, true); (3, true)] halted_store = Ret ([true; true], s12, log12)
    ∧ set_check_states [(3, true); (0, true)] halted_store = Ret ([true; true], s21, log21)
    ∧ (0 ≠ 3 → s12 = s21)
    ∧ (0 = 3 → ∃ log2, set_check_states [(3, true)] halted_store = Ret ([true], s12, log2)).
Proof.
  apply (set_check_state_compose halted_store halted_context 0 true 3 true).
  - reflexivity.
  - reflexivity.
  - unfold valid_row, rowCount, Tegra.NumEvents. lia.
  - unfold valid_row, rowCount, Tegra.NumEvents. lia.
Defined.

(** ** The double click *)

Lemma write_enabled_back r b c :
  Tegra.breakpoints c !! Z.to_nat r = Some (Tegra.mkBreakPoint b) →
  write_enabled r b (write_enabled r (negb b) c) = c.
Proof.
  intros Hb. destruct c as [at_ act bps]. unfold write_enabled. simpl in *.
  by rewrite list_insert_insert_eq, list_insert_id.
Qed.

Lemma check_state_of_flag s c r :
  context s = Some c → Tegra.well_formed c → valid_row r →
  ∃ b, Tegra.breakpoints c !! Z.to_nat r = Some (Tegra.mkBreakPoint b)
       ∧ enabled_flag s r = Some b
       ∧ data s (createIndex r 0) CheckStateRole = Ret (VCheckState (of_checked b)).
Proof.
  intros Hc Hwf Hr. destruct (breakpoint_at_valid c r Hwf Hr) as ([b] & Hl & Hb).
  exists b. split; [done|]. unfold enabled_flag, data, data_IsEnabled.
  rewrite Hc. simpl. rewrite Hb. simpl. split; [done|]. by destruct b.
Qed.

(** The double click on a row of the model, with the context there. *)
Lemma OnItemDoubleClicked_cell s c idx :
  context s = Some c → Tegra.well_formed c →
  isValid idx = true → valid_row (row idx) →
  ∃ b,
    enabled_flag s (row idx) = Some b
    ∧ Tegra.breakpoints c !! Z.to_nat (row idx) = Some (Tegra.mkBreakPoint b)
    ∧ let s' := with_context (write_enabled (row idx) (negb b) c) s in
      let i := createIndex (row idx) 0 in
      GraphicsBreakPointsWidget.OnItemDoubleClicked idx s
      = Ret (tt, s', [dataChanged i i s']).
Proof.
  intros Hc Hwf Hval Hr.
  destruct (check_state_of_flag s c (row idx) Hc Hwf Hr) as (b & Hl & Hflag & Hread).
  exists b. split; [done|]. split; [done|].
  unfold GraphicsBreakPointsWidget.OnItemDoubleClicked. rewrite Hval. unfold negb.
  cbv beta zeta iota. rewrite (index_cell _ Hr), Hread.
  unfold mbind, M_bind at 1. rewrite setData_unfold. simpl. rewrite Hc.
  destruct (breakpoint_at_valid c (row idx) Hwf Hr) as (b' & _ & ->).
  by destruct b.
Qed.

(** The double click anywhere else, or without a context. *)
Lemma OnItemDoubleClicked_elsewhere s idx :
  isValid idx = false ∨ ¬ valid_row (row idx) ∨ context s = None →
  GraphicsBreakPointsWidget.OnItemDoubleClicked idx s = Ret (tt, s, []).
Proof.
  intros Hcase.
  destruct (isValid idx) eqn:Hval;
    [|by unfold GraphicsBreakPointsWidget.OnItemDoubleClicked; rewrite Hval].
  destruct (decide (valid_row (row idx))) as [Hr|Hr].
  - destruct Hcase as [?|[?|Hc]]; try done.
    by apply OnItemDoubleClicked_no_context.
  - unfold GraphicsBreakPointsWidget.OnItemDoubleClicked. rewrite Hval. unfold negb.
    cbv beta zeta iota. rewrite index_outside by (by intros [? _]).
    by destruct s.
Qed.

(** X6.  A double click on a row, in whatever column, flips the
    breakpoint of that row, leaves every other row alone and announces
    the row once; the announcement is delivered after the write. *)
Theorem double_click_flips_the_row s c idx :
  context s = Some c → Tegra.well_formed c →
  isValid idx = true → valid_row (row idx) →
  ∃ b s',
    enabled_flag s (row idx) = Some b
    ∧ GraphicsBreakPointsWidget.OnItemDoubleClicked idx s
      = Ret (tt, s', [dataChanged (createIndex (row idx) 0) (createIndex (row idx) 0) s'])
    ∧ enabled_flag s' (row idx) = Some (negb b)
    ∧ (∀ j, j ≠ row idx → enabled_flag s' j = enabled_flag s j)
    ∧ model s' = model s.
Proof.
  intros Hc Hwf Hval Hr.
  destruct (OnItemDoubleClicked_cell s c idx Hc Hwf Hval Hr) as (b & Hflag & _ & Hdc).
  cbv zeta in Hdc. eexists b, _. split; [done|]. split; [exact Hdc|].
  split; [|split; [|done]].
  - rewrite (enabled_flag_write s c _ _ _ Hc Hwf Hr). by rewrite bool_decide_eq_true_2.
  - intros j Hj. rewrite (enabled_flag_write s c _ _ _ Hc Hwf Hr).
    by rewrite bool_decide_eq_false_2.
Qed.

Lemma double_click_flips_the_row_witness :
  ∃ b s',
    enabled_flag halted_store 3 = Some b
    ∧ GraphicsBreakPointsWidget.OnItemDoubleClicked (createIndex 3 0) halted_store
      = Ret (tt, s', [dataChanged (createIndex 3 0) (createIndex 3 0) s'])
    ∧ enabled_flag s' 3 = Some (negb b)
    ∧ (∀ j, j ≠ 3 → enabled_flag s' j = enabled_flag halted_store j)
    ∧ model s' = model halted_store.
Proof.
  apply (double_click_flips_the_row halted_store halted_context (createIndex 3 0)).
  - reflexivity.
  - reflexivity.
  - reflexivity.
  - unfold valid_row, rowCount, Tegra.NumEvents. simpl. lia.
Defined.

(** X7.  A double click never reaches outside the table, whatever index
    it is given, and a second double click on the same index undoes the
    first: the store is back where it was.  Both clicks announce the row,
    or neither does. *)
Theorem double_click_twice s idx :
  store_well_formed s →
  ∃ s1 log1 log2,
    GraphicsBreakPointsWidget.OnItemDoubleClicked idx s = Ret (tt, s1, log1)
    ∧ GraphicsBreakPointsWidget.OnItemDoubleClicked idx s1 = Ret (tt, s, log2)
    ∧ length log1 = length log2.
Proof.
  intros Hwf. unfold store_well_formed in Hwf.
  destruct (context s) as [c|] eqn:Hc;
    [|exists s, [], []; by rewrite OnItemDoubleClicked_elsewhere by auto].
  destruct (isValid idx) eqn:Hval;
    [|exists s, [], []; by rewrite OnItemDoubleClicked_elsewhere by auto].
  destruct (decide (valid_row (row idx))) as [Hr|Hr];
    [|exists s, [], []; by rewrite OnItemDoubleClicked_elsewhere by auto].
  destruct (OnItemDoubleClicked_cell s c idx Hc Hwf Hval Hr) as (b & _ & Hl & Hdc).
  cbv zeta in Hdc. set (c1 := write_enabled (row idx) (negb b) c) in *.
  assert (Hwf1 : Tegra.well_formed c1) by (by apply write_enabled_well_formed).
  destruct (OnItemDoubleClicked_cell (with_context c1 s) c1 idx eq_refl Hwf1 Hval Hr)
    as (b1 & Hflag1 & _ & Hdc1).
  cbv zeta in Hdc1.
  assert (b1 = negb b) as ->.
  { unfold c1 in Hflag1. rewrite (enabled_flag_write s c _ _ _ Hc Hwf Hr) in Hflag1.
    rewrite bool_decide_eq_true_2 in Hflag1 by done. congruence. }
  rewrite negb_involutive in Hdc1. subst c1.
  rewrite (write_enabled_back _ _ _ Hl) in Hdc1.
  change (with_context c (with_context _ s)) with (with_context c s) in Hdc1.
  rewrite (with_context_id s c Hc) in Hdc1.
  eexists _, _, _. split; [exact Hdc|]. split; [exact Hdc1|done].
Qed.

Lemma double_click_twice_witness :
  ∃ s1 log1 log2,
    GraphicsBreakPointsWidget.OnItemDoubleClicked (createIndex 2 0) halted_store
    = Ret (tt, s1, log1)
    ∧ GraphicsBreakPointsWidget.OnItemDoubleClicked (createIndex 2 0) s1
      = Ret (tt, halted_store, log2)
    ∧ length log1 = length log2.
Proof.
  apply (double_click_twice halted_store (createIndex 2 0)). reflexivity.
Defined.

(** ** What the panel leaves alone *)

Lemma same_context_frame_refl s : same_context_frame s s.
Proof. unfold same_context_frame. by destruct (context s). Qed.

Lemma same_context_frame_trans s1 s2 s3 :
  same_context_frame s1 s2 → same_context_frame s2 s3 → same_context_frame s1 s3.
Proof.
  unfold same_context_frame.
  destruct (context s1), (context s2), (context s3); try done.
  intros (-> & -> & ->) (-> & -> & ->). done.
Qed.

Lemma same_context_frame_write s c r b :
  context s = Some c → same_context_frame s (with_context (write_enabled r b c) s).
Proof.
  intros Hc. unfold same_context_frame. rewrite Hc. simpl.
  by rewrite length_insert.
Qed.

Lemma setData_frame idx v role s ok s' log :
  setData idx v role s = Ret (ok, s', log) →
  same_context_frame s s' ∧ same_display s s'.
Proof.
  rewrite setData_unfold. unfold same_display.
  destruct role; try (intros [= <- <- <-]; split; [apply same_context_frame_refl|done]).
  case_bool_decide; [intros [= <- <- <-]; split; [apply same_context_frame_refl|done]|].
  destruct (context s) as [c|] eqn:Hc;
    [|intros [= <- <- <-]; split; [apply same_context_frame_refl|done]].
  destruct (breakpoint_at c (row idx)); [|done].
  cbv zeta. intros [= <- <- <-]. split; [by apply same_context_frame_write|done].
Qed.

Lemma OnItemDoubleClicked_frame idx s s' log :
  GraphicsBreakPointsWidget.OnItemDoubleClicked idx s = Ret (tt, s', log) →
  same_context_frame s s' ∧ same_display s s'.
Proof.
  unfold GraphicsBreakPointsWidget.OnItemDoubleClicked.
  destruct (isValid idx); unfold negb; cbv beta zeta iota;
    [|intros [= <- <-]; split; [apply same_context_frame_refl|done]].
  destruct (data s (index (row idx) 0) CheckStateRole) as [enabled|]; [|done].
  unfold mbind, M_bind.
  destruct (setData _ _ _ s) as [[[ok s1] log1]|] eqn:Hset; [|done].
  unfold mret, M_ret. intros [= <- <-]. by apply setData_frame in Hset.
Qed.

Lemma deliver_BreakPointHit_unfold event s :
  deliver SIGNAL_BreakPointHit event s
  = match context s with
    | Some c =>
        let s' := with_model (BreakPointModel_new c)
                    (with_status "Emulation halted at breakpoint" true s) in
        Ret (tt, s', [dataChanged (createIndex event 0) (createIndex event 0) s'])
    | None => Ret (tt, with_status "Emulation halted at breakpoint" true s, [])
    end.
Proof. by destruct s as [[c|] m st rb]. Qed.

Lemma deliver_Resumed_unfold event s :
  deliver SIGNAL_Resumed event s
  = match context s with
    | Some c =>
        let running := with_status "Emulation running" false s in
        let previous := createIndex (active_breakpoint (model s)) 0 in
        let seen :=
          with_model (mkModel (Tegra.at_breakpoint c) (active_breakpoint (model s)))
                     running in
        Ret (tt, with_model (BreakPointModel_new c) running,
             [dataChanged previous previous seen])
    | None => Ret (tt, with_status "Emulation running" false s, [])
    end.
Proof. by destruct s as [[c|] m st rb]. Qed.

Lemma perform_frame call s s' log :
  perform call s = Ret (tt, s', log) →
  same_context_frame s s'
  ∧ match call with
    | ui_deliver _ _ =>
        match context s with
        | Some c => model s' = BreakPointModel_new c
        | None => model s' = model s
        end
    | _ => same_display s s'
    end.
Proof.
  destruct call as [idx v role|signal event| |idx]; simpl.
  - unfold mbind, M_bind.
    destruct (setData idx v role s) as [[[ok s1] log1]|] eqn:Hset; [|done].
    unfold mret, M_ret. intros [= <- <-]. by apply setData_frame in Hset.
  - destruct signal;
      rewrite ?deliver_BreakPointHit_unfold, ?deliver_Resumed_unfold;
      unfold same_context_frame;
      destruct (context s) as [c|] eqn:Hc; cbv zeta; intros [= <- <-]; simpl;
      rewrite ?Hc; done.
  - unfold GraphicsBreakPointsWidget.OnResumeRequested, mbind, M_bind, lock, call_Resume.
    destruct (context s) eqn:Hc; unfold mret, M_ret; intros [= <- <-];
      (split; [apply same_context_frame_refl|done]).
  - apply OnItemDoubleClicked_frame.
Qed.

(** X8.  Whatever sequence of calls the UI thread makes on the panel,
    the panel never creates or drops the context, never writes the
    context's [at_breakpoint] or [active_breakpoint], and never resizes
    the breakpoint table: the [enabled] flags are all it writes. *)
Theorem panel_writes_only_the_flags calls :
  ∀ s s' log,
    perform_all calls s = Ret (tt, s', log) →
    same_context_frame s s' ∧ (store_well_formed s → store_well_formed s').
Proof.
  induction calls as [|call calls IH]; intros s s' log.
  - intros [= <- <-]. split; [apply same_context_frame_refl|done].
  - simpl. unfold mbind, M_bind at 1.
    destruct (perform call s) as [[[[] s1] log1]|] eqn:Hcall; [|done].
    destruct (perform_all calls s1) as [[[[] s2] log2]|] eqn:Hrest; [|done].
    intros [= <- <-].
    apply perform_frame in Hcall as [Hframe1 _].
    apply IH in Hrest as [Hframe2 Hwf2].
    split; [by eapply same_context_frame_trans|].
    intros Hwf. apply Hwf2. revert Hframe1 Hwf.
    unfold same_context_frame, store_well_formed, Tegra.well_formed.
    destruct (context s), (context s1); try done.
    intros (_ & _ & ->). done.
Qed.

Lemma panel_writes_only_the_flags_witness :
  let calls := [ui_OnItemDoubleClicked (createIndex 2 0);
                ui_deliver SIGNAL_Resumed 0;
                ui_setData (createIndex 0 0) (VCheckState Checked) CheckStateRole;
                ui_OnResumeRequested] in
  ∃ s' log,
    perform_all calls halted_store = Ret (tt, s', log)
    ∧ same_context_frame halted_store s'
    ∧ (store_well_formed halted_store → store_well_formed s').
Proof.
  eexists _, _. split; [reflexivity|].
  eapply (panel_writes_only_the_flags
            [ui_OnItemDoubleClicked (createIndex 2 0);
             ui_deliver SIGNAL_Resumed 0;
             ui_setData (createIndex 0 0) (VCheckState Checked) CheckStateRole;
             ui_OnResumeRequested] halted_store).
  reflexivity.
Defined.

(** X9.  The snapshot, the label and the button change only when one of
    the two signals is delivered: a write from the view, a press of
    Resume and a double click leave all three as they were, and after a
    delivery with the context there the snapshot is the context's. *)
Theorem display_changes_only_on_delivery call s s' log :
  perform call s = Ret (tt, s', log) →
  match call with
  | ui_deliver _ _ =>
      match context s with
      | Some c => model s' = BreakPointModel_new c
      | None => model s' = model s
      end
  | _ =>
      model s' = model s
      ∧ status_text s' = status_text s
      ∧ resume_button_enabled s' = resume_button_enabled s
  end.
Proof. intros Hcall. by apply perform_frame in Hcall as [_ Hdisplay]. Qed.

Lemma display_changes_only_on_delivery_witness :
  ∃ s' log,
    perform (ui_OnItemDoubleClicked (createIndex 2 0)) halted_store = Ret (tt, s', log)
    ∧ model s' = model halted_store
    ∧ status_text s' = status_text halted_store
    ∧ resume_button_enabled s' = resume_button_enabled halted_store.
Proof.
  eexists _, _. split; [lazy; reflexivity|].
  eapply (display_changes_only_on_delivery (ui_OnItemDoubleClicked (createIndex 2 0))
            halted_store).
  lazy. reflexivity.
Defined.

(** ** The two deliveries *)

(** X10.  When a hit is delivered, the widget's slot and the model's
    slot both run before the view hears of it: the one announcement
    names the row of the event and finds the label, the button and the
    snapshot already updated.  The snapshot is taken from the context,
    not from the event, so the announced row is highlighted only if the
    context is at a breakpoint on that very event.  With the context
    gone the label and the button switch all the same, and nothing is
    announced. *)
Theorem hit_delivery event s :
  match context s with
  | Some c =>
      ∃ s',
        deliver_BreakPointHit event s
        = Ret (tt, s', [dataChanged (createIndex event 0) (createIndex event 0) s'])
        ∧ status_text s' = "Emulation halted at breakpoint"%string
        ∧ resume_button_enabled s' = true
        ∧ model s' = BreakPointModel_new c
        ∧ context s' = Some c
        ∧ (data s' (createIndex event 0) BackgroundRole = Ret highlight
           ↔ Tegra.at_breakpoint c = true ∧ Tegra.active_breakpoint c = event)
  | None =>
      deliver_BreakPointHit event s
      = Ret (tt, with_status "Emulation halted at breakpoint" true s, [])
  end.
Proof.
  unfold deliver_BreakPointHit. rewrite deliver_BreakPointHit_unfold.
  destruct (context s) as [c|] eqn:Hc; [|done].
  cbv zeta. eexists. split; [reflexivity|].
  do 3 (split; [done|]). split; [exact Hc|].
  rewrite background_role. simpl. split; intros [? ?]; by split.
Qed.

(** X11.  One round of the panel, under the contract of the context
    (halted on the event when the hit is delivered, running again when
    the resume is): after the hit the button is enabled and the row of
    the event, and no other, is highlighted; a press of Resume calls
    [Resume] once and changes nothing by itself; when the resume is
    delivered the row of the event is announced, already without its
    highlight, and the panel ends with the button disabled, the running
    label and no row highlighted. *)
Theorem hit_resume_round s c_hit c_run event :
  Tegra.at_breakpoint c_hit = true →
  Tegra.active_breakpoint c_hit = event →
  Tegra.at_breakpoint c_run = false →
  ∃ s1 log1 s2 seen,
    deliver_BreakPointHit event (with_context c_hit s) = Ret (tt, s1, log1)
    ∧ resume_button_enabled s1 = true
    ∧ (∀ idx, data s1 idx BackgroundRole = Ret highlight ↔ row idx = event)
    ∧ GraphicsBreakPointsWidget.OnResumeRequested s1 = Ret (tt, s1, [Resume])
    ∧ deliver_Resumed (with_context c_run s1)
      = Ret (tt, s2, [dataChanged (createIndex event 0) (createIndex event 0) seen])
    ∧ (∀ idx, data seen idx BackgroundRole = Ret Invalid)
    ∧ resume_button_enabled s2 = false
    ∧ status_text s2 = "Emulation running"%string
    ∧ (∀ idx, data s2 idx BackgroundRole = Ret Invalid).
Proof.
  intros Hat Hact Hrun.
  unfold deliver_BreakPointHit, deliver_Resumed.
  rewrite deliver_BreakPointHit_unfold. simpl context. cbv zeta.
  eexists _, _, _, _. split; [reflexivity|]. split; [done|]. split.
  { intros idx. rewrite background_role. simpl. rewrite Hat, Hact.
    split; [by intros [_ ?]|by split]. }
  split; [done|].
  rewrite deliver_Resumed_unfold. simpl context. cbv zeta. simpl.
  rewrite Hact. split; [reflexivity|].
  split; [intros idx; unfold data; simpl; by rewrite Hrun|].
  split; [done|]. split; [done|].
  intros idx. unfold data. simpl. by rewrite Hrun.
Qed.

Lemma hit_resume_round_witness :
  ∃ s1 log1 s2 seen,
    deliver_BreakPointHit 1
      (with_context halted_context (GraphicsBreakPointsWidget.new Tegra.fresh))
    = Ret (tt, s1, log1)
    ∧ resume_button_enabled s1 = true
    ∧ (∀ idx, data s1 idx BackgroundRole = Ret highlight ↔ row idx = 1)
    ∧ GraphicsBreakPointsWidget.OnResumeRequested s1 = Ret (tt, s1, [Resume])
    ∧ deliver_Resumed (with_context Tegra.fresh s1)
      = Ret (tt, s2, [dataChanged (createIndex 1 0) (createIndex 1 0) seen])
    ∧ (∀ idx, data seen idx BackgroundRole = Ret Invalid)
    ∧ resume_button_enabled s2 = false
    ∧ status_text s2 = "Emulation running"%string
    ∧ (∀ idx, data s2 idx BackgroundRole = Ret Invalid).
Proof.
  apply (hit_resume_round (GraphicsBreakPointsWidget.new Tegra.fresh)
           halted_context Tegra.fresh 1); reflexivity.
Defined.

(** X12.  A panel built on a context that is already halted shows the
    highlight of the active row at once, since the model copies the
    snapshot when it is built, while the label still says running and
    Resume stays disabled until the next hit is delivered. *)
Theorem panel_built_on_halted_context c :
  let s := GraphicsBreakPointsWidget.new c in
  status_text s = "Emulation running"%string
  ∧ resume_button_enabled s = false
  ∧ (∀ idx, data s idx BackgroundRole = Ret highlight
            ↔ Tegra.at_breakpoint c = true ∧ row idx = Tegra.active_breakpoint c).
Proof.
  intros s. split; [done|]. split; [done|].
  intros idx. by rewrite background_role.
Qed.

(** * Further properties of the install dialog *)

Section InstallDialogReads.

Import Install.

Variable rendered_width : string → Z.

Lemma filter_checked_nil (its : list QListWidgetItem) :
  filter (λ it, checkState it = Checked) its = []
  ↔ Forall (λ it, checkState it ≠ Checked) its.
Proof.
  induction its as [|it its IH]; [by split; [constructor|]|].
  destruct (decide (checkState it = Checked)) as [Hc|Hc].
  - rewrite filter_cons_True by done. split; [done|]. by inversion 1.
  - rewrite filter_cons_False by done. rewrite IH. split.
    + by constructor.
    + by inversion 1.
Qed.

(** X13.  [GetFiles] returns one path per checked item, so a path given
    twice comes back twice when both items are checked; the result is
    empty exactly when no item is checked, and an item that is only
    partially checked does not count. *)
Theorem GetFiles_one_path_per_checked_item d :
  ∃ accepted,
    GetFiles d = Some accepted
    ∧ length accepted
      = length (filter (λ it, checkState it = Checked) (items (file_list d)))
    ∧ (accepted = [] ↔ Forall (λ it, checkState it ≠ Checked) (items (file_list d))).
Proof.
  eexists. split; [apply GetFiles_checked|]. split; [by rewrite length_fmap|].
  rewrite <-filter_checked_nil. split.
  - by intros ?%fmap_nil_inv.
  - by intros ->.
Qed.

Lemma filter_checked_alter (its : list QListWidgetItem) i c :
  Forall (λ it, checkState it = Checked) its → c ≠ Checked →
  filter (λ it, checkState it = Checked)
         (alter (λ it, mkItem (text it) (user_data it) (item_flags it) c) i its)
  = delete i its.
Proof.
  intros Hall Hc. revert i. induction Hall as [|it its Hit Hall IH]; intros [|i]; try done.
  - change (filter (λ it, checkState it = Checked)
              (mkItem (text it) (user_data it) (item_flags it) c :: its) = its).
    rewrite filter_cons_False by done.
    clear IH. induction Hall as [|it' its' Hit' Hall' IH']; [done|].
    by rewrite filter_cons_True, IH'.
  - change (filter (λ it, checkState it = Checked)
              (it :: alter (λ it, mkItem (text it) (user_data it) (item_flags it) c) i its)
            = it :: delete i its).
    rewrite filter_cons_True by done. by rewrite IH.
Qed.

Lemma items_setCheckState i c d :
  items (file_list (setCheckState i c d))
  = alter (λ it, mkItem (text it) (user_data it) (item_flags it) c) i (items (file_list d)).
Proof. done. Qed.

(** X14.  Taking the check off one item of a freshly built dialog
    removes exactly that position from what [GetFiles] returns, and
    putting it back restores the whole input list. *)
Theorem uncheck_then_recheck (files : list string) i c :
  c ≠ Checked →
  GetFiles (setCheckState i c (new rendered_width files)) = Some (delete i files)
  ∧ GetFiles (setCheckState i Checked (setCheckState i c (new rendered_width files)))
    = Some files.
Proof.
  intros Hc.
  assert (Hall : Forall (λ it, checkState it = Checked) (file_item <$> files)).
  { apply Forall_fmap, Forall_true. done. }
  split.
  - rewrite GetFiles_checked, items_setCheckState, items_new.
    rewrite filter_checked_alter by done.
    by rewrite list_fmap_delete, item_path_file_item.
  - pose proof (GetFiles_reachable rendered_width files
                  [SetCheckState i c; SetCheckState i Checked]) as [_ Hget].
    cbv zeta in Hget. unfold run in Hget. simpl foldl in Hget. rewrite Hget.
    f_equal. rewrite !check_states_setCheckState, list_insert_insert_eq.
    unfold check_states. rewrite items_new.
    assert (Hst : checkState <$> (file_item <$> files) = replicate (length files) Checked).
    { clear. induction files as [|f files IH]; [done|]. rewrite !fmap_cons, IH. done. }
    rewrite Hst. rewrite list_insert_id'.
    + unfold checked_paths. clear.
      induction files as [|f files IH]; [done|].
      change (zip (f :: files) (replicate (length (f :: files)) Checked))
        with ((f, Checked) :: zip files (replicate (length files) Checked)).
      rewrite filter_cons_True by done. by rewrite fmap_cons, IH.
    + intros Hi. apply lookup_replicate_2. by rewrite length_replicate in Hi.
Qed.

Lemma string_app_assoc (a b c : string) : (a +:+ b) +:+ c = a +:+ (b +:+ c).
Proof.
  induction a as [|x a IH]; [done|].
  change (String x ((a +:+ b) +:+ c) = String x (a +:+ (b +:+ c))). by rewrite IH.
Qed.

Lemma string_app_empty (a : string) : a +:+ EmptyString = a.
Proof.
  induction a as [|x a IH]; [done|].
  change (String x (a +:+ EmptyString) = String x a). by rewrite IH.
Qed.

Lemma fileName_from_no_slash base :
  no_slash base = true → ∀ acc, fileName_from acc base = acc +:+ base.
Proof.
  induction base as [|x base IH]; intros Hns acc; simpl.
  - by rewrite string_app_empty.
  - simpl in Hns. apply andb_true_iff in Hns as [Hx Hns].
    apply negb_true_iff in Hx. rewrite Hx, (IH Hns).
    by rewrite string_app_assoc.
Qed.

Lemma fileName_from_dir dir base :
  ∀ acc, fileName_from acc (dir +:+ String "/" base) = fileName_from EmptyString base.
Proof.
  induction dir as [|x dir IH]; intros acc; simpl; [done|].
  destruct (Ascii.eqb x "/"); apply IH.
Qed.

(** X15.  The item the constructor builds for a path shows the part
    after its last ['/'] and keeps the whole path for [GetFiles]: for a
    path [dir/base] with no ['/'] in [base], the text is [base]; a path
    without any ['/'] is shown as it is. *)
Theorem items_show_basenames (dir base : string) :
  no_slash base = true →
  text (file_item (dir +:+ String "/" base)) = base
  ∧ item_path (file_item (dir +:+ String "/" base)) = dir +:+ String "/" base
  ∧ text (file_item base) = base
  ∧ ∀ files : list string,
      text <$> items (file_list (new rendered_width files)) = fileName <$> files.
Proof.
  intros Hns. split; [|split; [done|split]].
  - unfold file_item, fileName. simpl.
    by rewrite fileName_from_dir, (fileName_from_no_slash base Hns).
  - unfold file_item, fileName. simpl.
    by rewrite (fileName_from_no_slash base Hns).
  - intros files. rewrite items_new. clear.
    induction files as [|f files IH]; [done|]. by rewrite !fmap_cons, IH.
Qed.


End InstallDialogReads.

Lemma uncheck_then_recheck_witness :
  let files := ["/a/x.nsp"; "/b/y.nsp"; "/c/z.nsp"]%string in
  let d := Install.new Install.eight_pixels files in
  Install.GetFiles (Install.setCheckState 1 Unchecked d) = Some (delete 1%nat files)
  ∧ Install.GetFiles (Install.setCheckState 1 Checked (Install.setCheckState 1 Unchecked d))
    = Some files.
Proof.
  apply (uncheck_then_recheck Install.eight_pixels
           ["/a/x.nsp"; "/b/y.nsp"; "/c/z.nsp"]%string 1 Unchecked).
  discriminate.
Defined.

Lemma items_show_basenames_witness :
  Install.text (Install.file_item ("/a/b" +:+ String "/" "x.nsp")) = "x.nsp"%string
  ∧ Install.item_path (Install.file_item ("/a/b" +:+ String "/" "x.nsp"))
    = "/a/b" +:+ String "/" "x.nsp"
  ∧ Install.text (Install.file_item "x.nsp") = "x.nsp"%string.
Proof.
  destruct (items_show_basenames Install.eight_pixels "/a/b" "x.nsp" eq_refl)
    as (Htext & Hpath & Hbare & _).
  split; [exact Htext|]. split; [exact Hpath|exact Hbare].
Defined.

